(** * Toolbox and SharedVideo: a shallow embedding of two web components

    The development follows
    [react/features/toolbox/components/web/Toolbox.tsx], which holds two
    React components: the function component [Toolbox] (the main toolbar) and
    the class component [SharedVideo] (the shared-video panel).

    Conventions of the embedding.
    - A JavaScript string is a [string]: the sequence of the bytes of its
      UTF-8 form.  Emptiness, search for an ASCII literal, suffix tests
      against an ASCII literal and the byte-wise percent-encoding of the URL
      parser read the same on both sides.
    - A call that may throw returns a [completion]; a component that may
      render nothing returns an [option] ([None] is JavaScript's [null]).
    - A value of type [boolean | undefined] that the code only tests for
      truthiness is an [option bool].
    - A [dispatch(action)] appends the action to the list a handler or an
      effect returns; the actions are data (the intents of the store).
    - A JavaScript number is an IEEE 754 binary64 value ([Double.t]), with
      the subtraction and the conversion to a string of ECMAScript.  The
      components reach the two operations through the class [JS.Number].
    - What a component imports from modules outside this file is a field of
      a class ([Imports], [HostParser], [Globals]): the model is stated for
      every implementation of it. *)

From Stdlib Require Import String Ascii List ZArith Bool Arith Lia.
From Stdlib Require Import DecimalString DecimalFacts DecimalPos DecimalZ.
From stdpp Require Import base tactics option list strings numbers gmap.
Import ListNotations.

#[local] Open Scope string_scope.
#[local] Open Scope list_scope.

(** ** JavaScript values used by the two components *)

Module JS.

(** The errors the modelled code can raise. *)
Inductive error : Type :=
| TypeError (message : string).

(** The outcome of evaluating an expression: a value, or a thrown error. *)
Inductive completion (A : Type) : Type :=
| Normal (value : A)
| Throw (e : error).

Arguments Normal {A} value.
Arguments Throw {A} e.

#[global] Instance completion_ret : MRet completion := fun _ a => Normal a.

#[global] Instance completion_bind : MBind completion := fun _ _ k c =>
  match c with
  | Normal a => k a
  | Throw e => Throw e
  end.

(** Truthiness of a [boolean | undefined]. *)
Definition truthy (b : option bool) : bool :=
  match b with
  | Some true => true
  | _ => false
  end.

(** [s.startsWith(p)]. *)
Fixpoint startsWith (s p : string) : bool :=
  match p, s with
  | EmptyString, _ => true
  | String a p', String b s' => if Ascii.eqb a b then startsWith s' p' else false
  | String _ _, EmptyString => false
  end.

(** [s.match(/lit/)] for a regular expression that is the literal [lit]
    (no flag): the index of the leftmost occurrence, or [None] for [null]. *)
Fixpoint matchLiteral (s lit : string) : option nat :=
  if startsWith s lit then Some 0
  else match s with
       | EmptyString => None
       | String _ s' => option_map S (matchLiteral s' lit)
       end.

(** [s.endsWith(suffix)]: the last [suffix.length] characters of [s] are
    [suffix]. *)
Definition endsWith (s suffix : string) : bool :=
  let n := String.length s in
  let m := String.length suffix in
  if (m <=? n)%nat then String.eqb (substring (n - m) m s) suffix else false.

(** The two operations on numbers the components use: [a - b] and the
    conversion of a number to a string in a template literal.  The numbers
    of the language are the instance [Double.Number_double]; the parts of
    the components that only pass numbers on are stated for every
    instance. *)
Class Number (num : Type) : Type := {
  sub : num -> num -> num;
  toString : num -> string
}.

End JS.

(** ** The platform's numbers

    A JavaScript number is an IEEE 754 binary64 value.  The module has the
    Number values and the two operations of ECMAScript the components use on
    them: [Number::subtract] (the operator [-]) and [Number::toString] with
    radix 10 (the conversion a template literal applies).  Both are written
    as the standard states them: the exact result first, then the Number
    value for it. *)

Module Double.

#[local] Open Scope Z_scope.

(** The Number values.  A finite value other than zero is [m * 2 ^ e],
    negated when [negative], with [m] odd, so that a value is written in one
    way only; it is a Number value ([isNumber]) when [m < 2 ^ 53],
    [-1074 <= e] and [m * 2 ^ e < 2 ^ 1024]. *)
Inductive t : Type :=
| NaN
| Infinity (negative : bool)
| Zero (negative : bool)
| Finite (negative : bool) (m : positive) (e : Z).

#[global] Instance eq_dec : EqDecision t.
Proof. solve_decision. Defined.

Definition isNumber (x : t) : bool :=
  match x with
  | Finite _ m e =>
      Z.odd (Zpos m) && (Zpos m <? 2 ^ 53) && (-1074 <=? e)
      && (e + Z.log2 (Zpos m) + 1 <=? 1024)
  | _ => true
  end.

(** [m * 2 ^ e] with the factors 2 of [m] moved to the exponent. *)
Fixpoint oddPart (m : positive) (e : Z) : positive * Z :=
  match m with
  | xO m' => oddPart m' (e + 1)
  | _ => (m, e)
  end.

(** The value [magnitude * 2 ^ e] once it is rounded: infinite from
    [2 ^ 1024] on. *)
Definition finite (negative : bool) (magnitude e : Z) : t :=
  match magnitude with
  | Zpos p =>
      let '(m, e') := oddPart p e in
      if 1024 <? e' + Z.log2 (Zpos m) + 1 then Infinity negative
      else Finite negative m e'
  | _ => Zero negative
  end.

(** The integer [b] with [2 ^ b <= p / q < 2 ^ (b + 1)], for [p] and [q]
    above zero. *)
Definition floorLog2 (p q : Z) : Z :=
  let b := Z.log2 p - Z.log2 q in
  if p * 2 ^ Z.max (- b) 0 <? q * 2 ^ Z.max b 0 then b - 1 else b.

(** The Number value for the rational [p / q] ([0 <= p], [0 < q]) with the
    given sign: the quotient is cut to 53 bits, or at the exponent [-1074]
    of the subnormal values, and rounded to the nearest, to the even one
    when the two neighbours are as near. *)
Definition round (negative : bool) (p q : Z) : t :=
  let E := Z.max (floorLog2 p q - 52) (-1074) in
  let n := p * 2 ^ Z.max (- E) 0 in
  let d := q * 2 ^ Z.max E 0 in
  let Q := n / d in
  let R := n mod d in
  let up := (d <? 2 * R) || ((d =? 2 * R) && Z.odd Q) in
  finite negative (if up then Q + 1 else Q) E.

(** The Number value for [p / q], [0 < q]; for the integer [z]. *)
Definition ofQ (p q : Z) : t := round (p <? 0) (Z.abs p) q.

Definition ofZ (z : Z) : t := ofQ z 1.

Definition signed (negative : bool) (m : positive) : Z :=
  if negative then Zneg m else Zpos m.

(** [Number::subtract]: [x - y] is [x + (-y)]; the sum of two finite values
    is the Number value for their exact sum, [+0] when that is zero. *)
Definition subtract (x y : t) : t :=
  match x, y with
  | NaN, _ | _, NaN => NaN
  | Infinity a, Infinity b => if Bool.eqb a b then NaN else Infinity a
  | Infinity a, _ => Infinity a
  | _, Infinity b => Infinity (negb b)
  | Zero a, Zero b => Zero (a && negb b)
  | Zero _, Finite b m e => Finite (negb b) m e
  | Finite a m e, Zero _ => Finite a m e
  | Finite a m1 e1, Finite b m2 e2 =>
      let e := Z.min e1 e2 in
      let D := signed a m1 * 2 ^ (e1 - e) - signed b m2 * 2 ^ (e2 - e) in
      ofQ (D * 2 ^ Z.max e 0) (2 ^ Z.max (- e) 0)
  end.

(** The decimal digits of an integer that is not negative. *)
Definition digits (n : Z) : string :=
  NilZero.string_of_uint (N.to_uint (Z.to_N n)).

Fixpoint zeros (n : nat) : string :=
  match n with
  | O => ""
  | S n' => String "0" (zeros n')
  end.

(** [p / q < 10 ^ n]. *)
Definition below (p q n : Z) : bool :=
  p * 10 ^ Z.max (- n) 0 <? q * 10 ^ Z.max n 0.

(** The integer [n] with [10 ^ (n - 1) <= p / q < 10 ^ n], counted up from
    1 when [p / q] is 1 or more and down from 0 when it is less; no Number
    value needs more steps than the bounds allow. *)
Fixpoint countUp (fuel : nat) (p acc n : Z) : Z :=
  match fuel with
  | O => n
  | S fuel' => if p <? acc then n else countUp fuel' p (10 * acc) (n + 1)
  end.

Fixpoint countDown (fuel : nat) (acc q n : Z) : Z :=
  match fuel with
  | O => n
  | S fuel' => if 10 * acc <? q then countDown fuel' (10 * acc) q (n - 1) else n
  end.

Definition magnitude (p q : Z) : Z :=
  if p <? q then countDown 330 p q 0 else countUp 310 p (10 * q) 1.

(** The [k] digits [s] for which [s * 10 ^ (n - k)] has [x] as its Number
    value, if there are any: of the two numbers of [k] digits around
    [p / q], the one that is nearer when both qualify, the even one when
    they are as near. *)
Definition candidate (x : t) (p q n k : Z) : option (Z * Z * Z) :=
  let scale := n - k in
  let num := p * 10 ^ Z.max (- scale) 0 in
  let den := q * 10 ^ Z.max scale 0 in
  let s := num / den in
  let r := num mod den in
  let rounds s' :=
    bool_decide (round false (s' * 10 ^ Z.max scale 0) (10 ^ Z.max (- scale) 0) = x) in
  let lower := (n, k, s) in
  let upper := if s + 1 =? 10 ^ k then (n + 1, k, 10 ^ (k - 1)) else (n, k, s + 1) in
  match rounds s, rounds (s + 1) with
  | true, true =>
      Some (if (2 * r <? den) || ((2 * r =? den) && Z.even s) then lower else upper)
  | true, false => Some lower
  | false, true => Some upper
  | false, false => None
  end.

(** Step 5 of [Number::toString]: [n], [k] and [s] with [k] as small as
    possible.  Seventeen digits tell any two Number values apart. *)
Fixpoint shortest (fuel : nat) (x : t) (p q n k : Z) : Z * Z * Z :=
  match fuel with
  | O => (n, k, p * 10 ^ Z.max (k - n) 0 / (q * 10 ^ Z.max (n - k) 0))
  | S fuel' =>
      match candidate x p q n k with
      | Some r => r
      | None => shortest fuel' x p q n (k + 1)
      end
  end.

(** The steps of [Number::toString] after the digits are chosen: positional
    notation for [-5 <= n <= 21], the notation with an exponent otherwise. *)
Definition format (n k s : Z) : string :=
  let d := digits s in
  if (-5 <=? n) && (n <=? 21) then
    if k <=? n then (d ++ zeros (Z.to_nat (n - k)%Z))%string
    else if 0 <? n then
      (substring 0 (Z.to_nat n) d ++ "."
       ++ substring (Z.to_nat n) (Z.to_nat (k - n)%Z) d)%string
    else ("0." ++ zeros (Z.to_nat (- n)%Z) ++ d)%string
  else
    let exponent :=
      ((if (n <? 0)%Z then "-" else "+") ++ digits (Z.abs (n - 1)%Z))%string in
    if k =? 1 then (d ++ "e" ++ exponent)%string
    else (substring 0 1 d ++ "." ++ substring 1 (Z.to_nat (k - 1)%Z) d
          ++ "e" ++ exponent)%string.

(** [Number::toString(x, 10)]. *)
Definition toString (x : t) : string :=
  match x with
  | NaN => "NaN"
  | Zero _ => "0"
  | Infinity negative => if negative then "-Infinity" else "Infinity"
  | Finite negative m e =>
      let p := Zpos m * 2 ^ Z.max e 0 in
      let q := 2 ^ Z.max (- e) 0 in
      let '(n, k, s) := shortest 17 (Finite false m e) p q (magnitude p q) 1 in
      ((if negative then "-" else "") ++ format n k s)%string
  end.

#[global] Instance Number_double : JS.Number t := {
  JS.sub := subtract;
  JS.toString := toString
}.

(** [Number.MAX_SAFE_INTEGER], and the integers [Number.isSafeInteger]
    accepts. *)
Definition MAX_SAFE_INTEGER : Z := 2 ^ 53 - 1.

Definition isSafeInteger (z : Z) : Prop :=
  - MAX_SAFE_INTEGER <= z <= MAX_SAFE_INTEGER.

End Double.

(** ** The platform's [URL] constructor

    [new URL(input)] with no base: the basic URL parser of the URL Standard
    (WHATWG, in its current text), written as the standard writes it, a
    state machine over a pointer into the input.  The states that need a
    base URL or a state override are not reachable from the constructor call
    of the component and are left out.  The machine stops where the standard enters the query
    or the fragment state: those two states cannot fail and fill only
    [url.search] and [url.hash].  Credentials are scanned and not recorded.
    The host parser (domains, IPv4 and IPv6 addresses, opaque hosts) is the
    class [HostParser]. *)

Module URL.

#[local] Open Scope char_scope.

(** The standard's host parser: [host_parse input isOpaque] is the
    serialized host, or [None] for failure. *)
Class HostParser := host_parse : list ascii -> bool -> option string.

Inductive path_t : Type :=
| OpaquePath (p : string)
| ListPath (segments : list string).

Record t : Type := mk {
  scheme : string;
  host : option string;
  port : option N;
  path : path_t
}.

Definition code (c : ascii) : nat := nat_of_ascii c.

Definition between (lo hi : nat) (c : ascii) : bool :=
  (lo <=? code c)%nat && (code c <=? hi)%nat.

Definition isC0ControlOrSpace (c : ascii) : bool := (code c <=? 32)%nat.
Definition isTabOrNewline (c : ascii) : bool :=
  (code c =? 9)%nat || (code c =? 10)%nat || (code c =? 13)%nat.
Definition isDigit : ascii -> bool := between 48 57.
Definition isUpper : ascii -> bool := between 65 90.
Definition isLower : ascii -> bool := between 97 122.
Definition isAlpha (c : ascii) : bool := isUpper c || isLower c.
Definition isAlphanumeric (c : ascii) : bool := isAlpha c || isDigit c.

Definition lower (c : ascii) : ascii :=
  if isUpper c then ascii_of_nat (code c + 32) else c.

(** The percent-encode sets, by code point. *)
Definition inC0ControlSet (c : ascii) : bool :=
  (code c <=? 31)%nat || (126 <? code c)%nat.
Definition inQuerySet (c : ascii) : bool :=
  inC0ControlSet c || bool_decide (code c ∈ [32; 34; 35; 60; 62]%nat).
Definition inPathSet (c : ascii) : bool :=
  inQuerySet c || bool_decide (code c ∈ [63; 94; 96; 123; 125]%nat).

Definition hexDigit (n : nat) : ascii :=
  if (n <? 10)%nat then ascii_of_nat (48 + n) else ascii_of_nat (55 + n).

(** Percent-encode one byte: [%] and two upper-case hexadecimal digits. *)
Definition percentEncode (c : ascii) : list ascii :=
  ["%"; hexDigit (code c / 16); hexDigit (code c mod 16)].

Definition utf8PercentEncode (inSet : ascii -> bool) (c : ascii) : list ascii :=
  if inSet c then percentEncode c else [c].

(** Special schemes with their default ports. *)
Definition specialSchemes : list (string * option N) :=
  [("ftp", Some 21); ("file", None); ("http", Some 80); ("https", Some 443);
   ("ws", Some 80); ("wss", Some 443)]%N%string.

Definition lookupScheme (s : string) : option (option N) :=
  snd <$> List.find (fun e => String.eqb (fst e) s) specialSchemes.

Definition isSpecial (u : t) : bool := bool_decide (is_Some (lookupScheme (scheme u))).

Definition defaultPort (u : t) : option N := default None (lookupScheme (scheme u)).

Definition isWindowsDriveLetter (b : list ascii) : bool :=
  match b with
  | [a; s] => isAlpha a && (Ascii.eqb s ":" || Ascii.eqb s "|")
  | _ => false
  end.

Definition isNormalizedWindowsDriveLetter (s : string) : bool :=
  match list_ascii_of_string s with
  | [a; c] => isAlpha a && Ascii.eqb c ":"
  | _ => false
  end.

Definition lowerAll (b : list ascii) : string := string_of_list_ascii (map lower b).

Definition isSingleDot (b : list ascii) : bool :=
  bool_decide (lowerAll b ∈ ["."; "%2e"]%string).

Definition isDoubleDot (b : list ascii) : bool :=
  bool_decide (lowerAll b ∈ [".."; ".%2e"; "%2e."; "%2e%2e"]%string).

Definition segments (u : t) : list string :=
  match path u with
  | ListPath l => l
  | OpaquePath _ => []
  end.

Definition setPath (p : path_t) (u : t) : t :=
  {| scheme := scheme u; host := host u; port := port u; path := p |}.
Definition setScheme (s : string) (u : t) : t :=
  {| scheme := s; host := host u; port := port u; path := path u |}.
Definition setHost (h : option string) (u : t) : t :=
  {| scheme := scheme u; host := h; port := port u; path := path u |}.
Definition setPort (p : option N) (u : t) : t :=
  {| scheme := scheme u; host := host u; port := p; path := path u |}.

(** Shorten a URL's path. *)
Definition shorten (u : t) : t :=
  match segments u with
  | [only] =>
      if String.eqb (scheme u) "file" && isNormalizedWindowsDriveLetter only
      then u else setPath (ListPath []) u
  | l => setPath (ListPath (removelast l)) u
  end.

Definition appendSegment (s : string) (u : t) : t :=
  setPath (ListPath (segments u ++ [s])) u.

Definition appendOpaque (cs : list ascii) (u : t) : t :=
  match path u with
  | OpaquePath p => setPath (OpaquePath (p ++ string_of_list_ascii cs)%string) u
  | ListPath _ => u
  end.

(** The value of a decimal digit string. *)
Definition decimal (b : list ascii) : N :=
  fold_left (fun acc c => (10 * acc + N.of_nat (code c - 48))%N) b 0%N.

(** *** The state machine *)

Inductive state : Type :=
| SchemeStart | Scheme | NoScheme
| SpecialAuthoritySlashes | SpecialAuthorityIgnoreSlashes | PathOrAuthority
| Authority | Host | Port
| File | FileSlash | FileHost
| PathStart | Path | Opaque.

Record machine : Type := Machine {
  st : state;
  pointer : nat;
  buffer : list ascii;
  atSignSeen : bool;
  insideBrackets : bool;
  url : t
}.

Inductive outcome : Type :=
| Continue (m : machine)
| Return (u : t)
| Failure.

Definition goto (s : state) (m : machine) : machine :=
  Machine s (pointer m) (buffer m) (atSignSeen m) (insideBrackets m) (url m).
Definition setPointer (p : nat) (m : machine) : machine :=
  Machine (st m) p (buffer m) (atSignSeen m) (insideBrackets m) (url m).
Definition setBuffer (b : list ascii) (m : machine) : machine :=
  Machine (st m) (pointer m) b (atSignSeen m) (insideBrackets m) (url m).
Definition push (cs : list ascii) (m : machine) : machine :=
  setBuffer (buffer m ++ cs) m.
Definition setAtSignSeen (b : bool) (m : machine) : machine :=
  Machine (st m) (pointer m) (buffer m) b (insideBrackets m) (url m).
Definition setInsideBrackets (b : bool) (m : machine) : machine :=
  Machine (st m) (pointer m) (buffer m) (atSignSeen m) b (url m).
Definition onUrl (f : t -> t) (m : machine) : machine :=
  Machine (st m) (pointer m) (buffer m) (atSignSeen m) (insideBrackets m) (f (url m)).

(** [c] is the code point [a]; the end of the input is [None]. *)
Definition isChar (c : option ascii) (a : ascii) : bool :=
  match c with
  | Some b => Ascii.eqb a b
  | None => false
  end.

Definition isEOF (c : option ascii) : bool :=
  match c with
  | None => true
  | Some _ => false
  end.

Definition sat (p : ascii -> bool) (c : option ascii) : bool :=
  match c with
  | Some b => p b
  | None => false
  end.

Section Parser.

Context {hostParser : HostParser}.
Variable input : list ascii.

(** The end of one run of the machine: stop after the end of the input was
    processed, move to the next code point otherwise. *)
Definition next (m : machine) : outcome :=
  if (pointer m <? length input)%nat
  then Continue (setPointer (S (pointer m)) m)
  else Return (url m).

(** [decrease pointer by 1] before the end of a run: the same code point is
    read again in the new state. *)
Definition again (m : machine) : outcome := Continue m.

(** The query and the fragment state: nothing read by the component is left
    to parse. *)
Definition finish (m : machine) : outcome := Return (url m).

(** The end of an authority or of a host: the end of the input, [/], [?],
    [#], and for a special URL [\]. *)
Definition endsAuthority (m : machine) (c : option ascii) : bool :=
  isEOF c || isChar c "/" || isChar c "?" || isChar c "#" || (isSpecial (url m) && isChar c "\").

(** Host parsing the buffer, then [k] on the machine with the host set and
    the buffer emptied. *)
Definition withHost (fix_host : string -> string) (k : machine -> outcome)
    (m : machine) : outcome :=
  match host_parse (buffer m) (negb (isSpecial (url m))) with
  | None => Failure
  | Some h => k (setBuffer [] (onUrl (setHost (Some (fix_host h))) m))
  end.

Definition step (m : machine) : outcome :=
  let c := input !! pointer m in
  let remaining := drop (S (pointer m)) input in
  match st m with
  | SchemeStart =>
      if sat isAlpha c then next (goto Scheme (push (lower <$> option_list c) m))
      else again (goto NoScheme m)
  | Scheme =>
      if sat (fun a => isAlphanumeric a || bool_decide (a ∈ ["+"; "-"; "."])) c
      then next (push (lower <$> option_list c) m)
      else if isChar c ":" then
        let m := setBuffer [] (onUrl (setScheme (string_of_list_ascii (buffer m))) m) in
        if String.eqb (scheme (url m)) "file" then next (goto File m)
        else if isSpecial (url m) then next (goto SpecialAuthoritySlashes m)
        else if bool_decide (head remaining = Some "/")
        then next (setPointer (S (pointer m)) (goto PathOrAuthority m))
        else next (goto Opaque (onUrl (setPath (OpaquePath "")) m))
      else Continue (setPointer 0 (goto NoScheme (setBuffer [] m)))
  | NoScheme => Failure
  | SpecialAuthoritySlashes =>
      if isChar c "/" && bool_decide (head remaining = Some "/")
      then next (setPointer (S (pointer m)) (goto SpecialAuthorityIgnoreSlashes m))
      else again (goto SpecialAuthorityIgnoreSlashes m)
  | SpecialAuthorityIgnoreSlashes =>
      if negb (isChar c "/") && negb (isChar c "\") then again (goto Authority m)
      else next m
  | PathOrAuthority =>
      if isChar c "/" then next (goto Authority m)
      else again (goto Path m)
  | Authority =>
      if isChar c "@" then next (setBuffer [] (setAtSignSeen true m))
      else if endsAuthority m c then
        if atSignSeen m && bool_decide (buffer m = []) then Failure
        else Continue (setPointer (pointer m - length (buffer m))
                         (goto Host (setBuffer [] m)))
      else next (push (option_list c) m)
  | Host =>
      if isChar c ":" && negb (insideBrackets m) then
        if bool_decide (buffer m = []) then Failure
        else withHost id (fun m => next (goto Port m)) m
      else if endsAuthority m c then
        if isSpecial (url m) && bool_decide (buffer m = []) then Failure
        else withHost id (fun m => again (goto PathStart m)) m
      else
        let m := if isChar c "[" then setInsideBrackets true m else m in
        let m := if isChar c "]" then setInsideBrackets false m else m in
        next (push (option_list c) m)
  | Port =>
      if sat isDigit c then next (push (option_list c) m)
      else if endsAuthority m c then
        if bool_decide (buffer m = []) then again (goto PathStart m)
        else
          let p := decimal (buffer m) in
          if (65535 <? p)%N then Failure
          else
            let p := if bool_decide (defaultPort (url m) = Some p) then None else Some p in
            again (goto PathStart (setBuffer [] (onUrl (setPort p) m)))
      else Failure
  | File =>
      let m := onUrl (setHost (Some ""%string)) (onUrl (setScheme "file") m) in
      if isChar c "/" || isChar c "\" then next (goto FileSlash m)
      else again (goto Path m)
  | FileSlash =>
      if isChar c "/" || isChar c "\" then next (goto FileHost m)
      else again (goto Path m)
  | FileHost =>
      if isEOF c || isChar c "/" || isChar c "\" || isChar c "?" || isChar c "#" then
        if isWindowsDriveLetter (buffer m) then again (goto Path m)
        else if bool_decide (buffer m = [])
        then again (goto PathStart (onUrl (setHost (Some ""%string)) m))
        else withHost (fun h => if String.eqb h "localhost" then ""%string else h)
               (fun m => again (goto PathStart m)) m
      else next (push (option_list c) m)
  | PathStart =>
      if isSpecial (url m) then
        if isChar c "/" || isChar c "\" then next (goto Path m) else again (goto Path m)
      else if isChar c "?" || isChar c "#" then finish m
      else if negb (isEOF c) then
        if isChar c "/" then next (goto Path m) else again (goto Path m)
      else next m
  | Path =>
      let slash := isChar c "/" || (isSpecial (url m) && isChar c "\") in
      if isEOF c || slash || isChar c "?" || isChar c "#" then
        let b := buffer m in
        let m :=
          if isDoubleDot b then
            let m := onUrl shorten m in
            if negb slash then onUrl (appendSegment "") m else m
          else if isSingleDot b && negb slash then onUrl (appendSegment "") m
          else if negb (isSingleDot b) then
            let b :=
              if String.eqb (scheme (url m)) "file"
                 && bool_decide (segments (url m) = [])
                 && isWindowsDriveLetter b
              then take 1 b ++ [":"] else b in
            onUrl (appendSegment (string_of_list_ascii b)) m
          else m in
        let m := setBuffer [] m in
        if isChar c "?" || isChar c "#" then finish m else next m
      else next (push (option_list c ≫= utf8PercentEncode inPathSet) m)
  | Opaque =>
      if isChar c "?" || isChar c "#" then finish m
      else if isChar c " " then
        if bool_decide (head remaining = Some "?") || bool_decide (head remaining = Some "#")
        then next (onUrl (appendOpaque ["%"; "2"; "0"]) m)
        else next (onUrl (appendOpaque [" "]) m)
      else
        next (onUrl (appendOpaque (option_list c ≫= utf8PercentEncode inC0ControlSet)) m)
  end.

(** Run the machine for at most [fuel] steps; [None] when the fuel is
    spent ([parse_terminates] shows this does not happen from the start). *)
Fixpoint run (fuel : nat) (m : machine) : option (option t) :=
  match fuel with
  | O => None
  | S fuel' =>
      match step m with
      | Continue m' => run fuel' m'
      | Return u => Some (Some u)
      | Failure => Some None
      end
  end.

End Parser.

Definition rank (s : state) : nat :=
  match s with
  | SchemeStart => 12
  | Scheme => 11
  | NoScheme | File | SpecialAuthoritySlashes => 10
  | FileSlash | SpecialAuthorityIgnoreSlashes | PathOrAuthority => 9
  | FileHost | Authority => 8
  | Host => 7
  | Port => 6
  | PathStart => 5
  | Path | Opaque => 4
  end.

(** A bound on the number of runs left: the states are entered in the order
    of their rank, and a state that is kept reads the next code point. *)
Definition measure (input : list ascii) (m : machine) : nat :=
  rank (st m) * S (length input) + (length input - pointer m).

(** Leading and trailing C0 control or space are removed, then every ASCII
    tab or newline. *)
Fixpoint dropLeading (l : list ascii) : list ascii :=
  match l with
  | a :: l' => if isC0ControlOrSpace a then dropLeading l' else l
  | [] => []
  end.

Definition strip (cs : list ascii) : list ascii :=
  reverse (dropLeading (reverse (dropLeading cs))).

Definition preprocess (cs : list ascii) : list ascii :=
  filter (fun a => negb (isTabOrNewline a)) (strip cs).

Definition start : machine :=
  Machine SchemeStart 0 [] false false (mk ""%string None None (ListPath [])).

(** The basic URL parser on [s] with no base URL: a URL record, or [None]
    for failure. *)
Definition parse {hostParser : HostParser} (s : string) : option t :=
  let input := preprocess (list_ascii_of_string s) in
  default None (run input (S (measure input start)) start).

(** [new URL(s)]: a [TypeError] when the parser fails. *)
Definition new {hostParser : HostParser} (s : string) : JS.completion t :=
  match parse s with
  | Some u => JS.Normal u
  | None => JS.Throw (JS.TypeError "Invalid URL")
  end.

(** The [pathname] getter: the URL path serializer. *)
Definition pathname (u : t) : string :=
  match path u with
  | OpaquePath p => p
  | ListPath l => String.concat "" (map (fun seg => "/" ++ seg)%string l)
  end.

End URL.

(** ** The shared-video panel *)

Module SharedVideo.

(** What the component reads from outside: [interfaceConfig.VERTICAL_FILMSTRIP]
    (its truthiness), and the values [getToolboxHeight()] and
    [Filmstrip.getFilmstripHeight()] return when [getDimensions] runs. *)
Class Globals (num : Type) : Type := {
  VERTICAL_FILMSTRIP : bool;
  getToolboxHeight : num;
  getFilmstripHeight : num
}.

Record IProps (num : Type) : Type := {
  clientHeight : num;
  clientWidth : num;
  filmstripVisible : bool;
  filmstripWidth : num;
  isEnabled : bool;
  isOwner : bool;
  isResizing : bool;
  videoUrl : option string
}.

Arguments clientHeight {num} _.
Arguments clientWidth {num} _.
Arguments filmstripVisible {num} _.
Arguments filmstripWidth {num} _.
Arguments isEnabled {num} _.
Arguments isOwner {num} _.
Arguments isResizing {num} _.
Arguments videoUrl {num} _.

Record Dimensions : Type := {
  width : string;
  height : string
}.

(** The element [getManager] returns; each manager takes the URL as its
    [videoId]. *)
Inductive Manager : Type :=
| ExtendedVideoManager (videoId : string)
| VideoManager (videoId : string)
| YoutubeVideoManager (videoId : string).

(** The [div] that [render] returns. *)
Record Element : Type := {
  className : string;
  id : string;
  style : Dimensions;
  children : option Manager
}.

Section Component.

Context {num : Type} {N : JS.Number num} {G : Globals num} {P : URL.HostParser}.

(** The template literal [`${n}px`]. *)
Definition px (n : num) : string := JS.toString n ++ "px".

Definition getDimensions (props : IProps num) : Dimensions :=
  if VERTICAL_FILMSTRIP then
    {| width :=
         if filmstripVisible props
         then px (JS.sub (clientWidth props) (filmstripWidth props))
         else px (clientWidth props);
       height := px (JS.sub (clientHeight props) getToolboxHeight) |}
  else
    {| height :=
         if filmstripVisible props
         then px (JS.sub (clientHeight props) getFilmstripHeight)
         else px (clientHeight props);
       width := px (clientWidth props) |}.

Definition getManager (props : IProps num) : JS.completion (option Manager) :=
  match videoUrl props with
  | None => mret None
  | Some videoUrl =>
      if bool_decide (videoUrl = "") then mret None
      else if bool_decide (is_Some (JS.matchLiteral videoUrl "http")) then
        vUrl ← URL.new videoUrl;
        if JS.endsWith (URL.pathname vUrl) ".flv"
           || JS.endsWith (URL.pathname vUrl) ".m3u8"
        then mret (Some (ExtendedVideoManager videoUrl))
        else mret (Some (VideoManager videoUrl))
      else mret (Some (YoutubeVideoManager videoUrl))
  end.

(** The attributes of the [div] are evaluated in the order they are written,
    its child last: an error thrown by [getManager] leaves [render]. *)
Definition render (props : IProps num) : JS.completion (option Element) :=
  if negb (isEnabled props) then mret None
  else
    let className := if negb (isResizing props) && isOwner props
                     then "" else "disable-pointer" in
    let style := getDimensions props in
    child ← getManager props;
    mret (Some {| className := className; id := "sharedVideo";
                  style := style; children := child |}).

End Component.

End SharedVideo.

(** ** The main toolbar *)

Module Toolbox.

(** A React component used as the [Content] of a toolbar button.  The code
    compares it with [Separator] by reference. *)
Inductive component : Type :=
| Separator
| Button (name : string).

#[global] Instance component_eq_dec : EqDecision component.
Proof. solve_decision. Defined.

(** An entry of the lists [getVisibleButtons] returns:
    [{ Content, key, ...rest }]. *)
Record IToolboxButton : Type := {
  Content : component;
  key : string;
  rest : list (string * string)
}.

(** [<Content {...rest} buttonKey = {key} key = {key} />]. *)
Record ButtonElement : Type := {
  elementType : component;
  elementProps : list (string * string);
  buttonKey : string;
  elementKey : string
}.

(** The intents the component dispatches. *)
Inductive Action : Type :=
| SET_HANGUP_MENU_VISIBLE (visible : bool)
| SET_OVERFLOW_MENU_VISIBLE (visible : bool)
| SET_TOOLBAR_HOVERED (hovered : bool)
| SHOW_TOOLBOX.

#[global] Instance Action_eq_dec : EqDecision Action.
Proof. solve_decision. Defined.

(** Modelled from the spec: the action creators of [actions.web] (not in
    src/) build the state-mutation intents that the component dispatches;
    each creator named [setX] carries the new value of [X]. *)
Definition setHangupMenuVisible (visible : bool) : Action := SET_HANGUP_MENU_VISIBLE visible.
Definition setOverflowMenuVisible (visible : bool) : Action := SET_OVERFLOW_MENU_VISIBLE visible.
Definition setToolbarHovered (hovered : bool) : Action := SET_TOOLBAR_HOVERED hovered.
Definition showToolbox : Action := SHOW_TOOLBOX.

(** The callbacks the rendered elements are wired to. *)
Inductive handler : Type :=
| OnEscKey | OnMouseOut | OnMouseOver | OnTabIn | OnSetHangupVisible.

Inductive MenuItem : Type :=
| EndConferenceButton (buttonKey : string) (notifyMode : option string)
| LeaveConferenceButton (buttonKey : string) (notifyMode : option string).

Record ContextMenu : Type := {
  accessibilityLabel : string;
  menuClassName : string;
  hidden : bool;
  inDrawer : bool;
  onKeyDown : handler;
  menuItems : list MenuItem
}.

Inductive HangupControl : Type :=
| HangupMenuButton (ariaControls : string) (isOpen : bool) (key : string)
    (notifyMode : option string) (onVisibilityChange : handler) (menu : ContextMenu)
| HangupButton (buttonKey customClass key : string) (notifyMode : option string)
    (visible : bool).

(** The tree [Toolbox] returns.  A child that is [false] in the source (the
    left operand of [&&]) is [None]: React renders nothing for it. *)
Record Element : Type := {
  className : string;
  id : string;
  containerClassName : string;
  onFocus : handler;
  mouseHandlers : option (handler * handler);
  items : list (option ButtonElement);
  hangup : option HangupControl
}.

Record Conference : Type := {
  isEndConferenceSupported : bool
}.

Record KeyboardEvent : Type := {
  eventKey : string
}.

(** What a handler does: it may stop the propagation of its event, and it
    dispatches actions in order. *)
Record Effects : Type := {
  stopPropagation : bool;
  dispatched : list Action
}.

#[local] Set Implicit Arguments.

Section Component.

(** Data the component hands on without looking inside. *)
Variables (CustomButtons AllButtons Jwt Features Thresholds : Type).

Record IProps : Type := {
  isConferenceJoined : option bool;
  toolbarButtons : option (list string)
}.

(** The application state as the component's selectors read it, and the
    [hovered] flag that [setToolbarHovered] writes. *)
Record Store : Type := {
  conference : option Conference;
  isNarrowLayout : bool;
  clientWidth : Z;
  isModerator : bool;
  customToolbarButtons : CustomButtons;
  iAmRecorder : option bool;
  iAmSipGateway : option bool;
  overflowDrawer : bool;
  shiftUp : bool;
  overflowMenuVisible : bool;
  hangupMenuVisible : bool;
  buttonsWithNotifyClick : gmap string string;
  reduxToolbarButtons : list string;
  chatOpen : bool;
  isDialogVisible : bool;
  jwt : Jwt;
  localParticipantFeatures : option Features;
  transcribing : bool;
  toolbarVisible : bool;
  mainToolbarButtonsThresholds : Thresholds;
  hovered : bool
}.

(** The argument and the result of [getVisibleButtons]. *)
Record VisibleButtonsArgs : Type := {
  arg_allButtons : AllButtons;
  arg_buttonsWithNotifyClick : gmap string string;
  arg_toolbarButtons : list string;
  arg_clientWidth : Z;
  arg_jwtDisabledButtons : list string;
  arg_mainToolbarButtonsThresholds : Thresholds
}.

Record VisibleButtons : Type := {
  mainMenuButtons : list IToolboxButton;
  overflowMenuButtons : list IToolboxButton
}.

(** The functions the component imports ([functions.web], [hooks.web],
    [base/environment/utils], [react-i18next], [tss-react]). *)
Class Imports : Type := {
  isMobileBrowser : bool;
  getJwtDisabledButtons : bool -> bool -> Jwt -> option Features -> list string;
  getVisibleButtons : VisibleButtonsArgs -> VisibleButtons;
  isButtonEnabled : string -> list string -> bool;
  useToolboxButtons : CustomButtons -> AllButtons;
  t : string -> string;
  cx : string -> option string -> string;
  classes_hangupMenu : string;
  runShowToolbox : Store -> Store
}.

Context {I : Imports}.

Definition toolbarButtonsToUse (props : IProps) (s : Store) : list string :=
  default (reduxToolbarButtons s) (toolbarButtons props).

Definition jwtDisabledButtons (s : Store) : list string :=
  getJwtDisabledButtons (transcribing s) (isModerator s) (jwt s)
    (localParticipantFeatures s).

(** *** Callbacks

    [useKeyboardShortcuts] and the first effect (it takes the focus away
    from an element of the toolbar when the toolbar hides) act on the
    document only and dispatch nothing: they are left out. *)

Definition onSetHangupVisible (visible : bool) : list Action :=
  [setHangupMenuVisible visible; setToolbarHovered visible].

Definition onSetOverflowVisible (visible : bool) : list Action :=
  [setOverflowMenuVisible visible; setToolbarHovered visible].

Definition onEscKey (s : Store) (e : option KeyboardEvent) : Effects :=
  if bool_decide (eventKey <$> e = Some "Escape") then
    {| stopPropagation := true;
       dispatched :=
         (if hangupMenuVisible s then [setHangupMenuVisible false] else [])
         ++ (if overflowMenuVisible s then [setOverflowMenuVisible false] else []) |}
  else {| stopPropagation := false; dispatched := [] |}.

Definition onMouseOut (s : Store) : list Action :=
  if negb (overflowMenuVisible s) then [setToolbarHovered false] else [].

Definition onMouseOver : list Action := [setToolbarHovered true].

Definition onTabIn (s : Store) : list Action :=
  if negb (toolbarVisible s) then [showToolbox] else [].

(** *** Effects *)

Definition hangupMenuEffect (s : Store) : list Action :=
  if hangupMenuVisible s && negb (toolbarVisible s)
  then onSetHangupVisible false ++ [setToolbarHovered false]
  else [].

Definition overflowMenuEffect (s : Store) : list Action :=
  if overflowMenuVisible s && isDialogVisible s
  then onSetOverflowVisible false ++ [setToolbarHovered false]
  else [].

(** *** The store and the life cycle of the effects *)

Definition withHangupMenuVisible (v : bool) (s : Store) : Store :=
  {| conference := conference s; isNarrowLayout := isNarrowLayout s;
     clientWidth := clientWidth s; isModerator := isModerator s;
     customToolbarButtons := customToolbarButtons s; iAmRecorder := iAmRecorder s;
     iAmSipGateway := iAmSipGateway s; overflowDrawer := overflowDrawer s;
     shiftUp := shiftUp s; overflowMenuVisible := overflowMenuVisible s;
     hangupMenuVisible := v; buttonsWithNotifyClick := buttonsWithNotifyClick s;
     reduxToolbarButtons := reduxToolbarButtons s; chatOpen := chatOpen s;
     isDialogVisible := isDialogVisible s; jwt := jwt s;
     localParticipantFeatures := localParticipantFeatures s;
     transcribing := transcribing s; toolbarVisible := toolbarVisible s;
     mainToolbarButtonsThresholds := mainToolbarButtonsThresholds s;
     hovered := hovered s |}.

Definition withOverflowMenuVisible (v : bool) (s : Store) : Store :=
  {| conference := conference s; isNarrowLayout := isNarrowLayout s;
     clientWidth := clientWidth s; isModerator := isModerator s;
     customToolbarButtons := customToolbarButtons s; iAmRecorder := iAmRecorder s;
     iAmSipGateway := iAmSipGateway s; overflowDrawer := overflowDrawer s;
     shiftUp := shiftUp s; overflowMenuVisible := v;
     hangupMenuVisible := hangupMenuVisible s;
     buttonsWithNotifyClick := buttonsWithNotifyClick s;
     reduxToolbarButtons := reduxToolbarButtons s; chatOpen := chatOpen s;
     isDialogVisible := isDialogVisible s; jwt := jwt s;
     localParticipantFeatures := localParticipantFeatures s;
     transcribing := transcribing s; toolbarVisible := toolbarVisible s;
     mainToolbarButtonsThresholds := mainToolbarButtonsThresholds s;
     hovered := hovered s |}.

Definition withHovered (v : bool) (s : Store) : Store :=
  {| conference := conference s; isNarrowLayout := isNarrowLayout s;
     clientWidth := clientWidth s; isModerator := isModerator s;
     customToolbarButtons := customToolbarButtons s; iAmRecorder := iAmRecorder s;
     iAmSipGateway := iAmSipGateway s; overflowDrawer := overflowDrawer s;
     shiftUp := shiftUp s; overflowMenuVisible := overflowMenuVisible s;
     hangupMenuVisible := hangupMenuVisible s;
     buttonsWithNotifyClick := buttonsWithNotifyClick s;
     reduxToolbarButtons := reduxToolbarButtons s; chatOpen := chatOpen s;
     isDialogVisible := isDialogVisible s; jwt := jwt s;
     localParticipantFeatures := localParticipantFeatures s;
     transcribing := transcribing s; toolbarVisible := toolbarVisible s;
     mainToolbarButtonsThresholds := mainToolbarButtonsThresholds s;
     hovered := v |}.

(** Modelled from the spec: the reducer of the toolbox feature (not in
    src/) applies a state-mutation intent to the store; an intent built by
    [setX] sets the flag [X] and nothing else.  [showToolbox] is a thunk of
    [actions.web]: what it does to the store is the import
    [runShowToolbox]. *)
Definition reduce (s : Store) (a : Action) : Store :=
  match a with
  | SET_HANGUP_MENU_VISIBLE v => withHangupMenuVisible v s
  | SET_OVERFLOW_MENU_VISIBLE v => withOverflowMenuVisible v s
  | SET_TOOLBAR_HOVERED v => withHovered v s
  | SHOW_TOOLBOX => runShowToolbox s
  end.

Definition dispatchAll (s : Store) (actions : list Action) : Store :=
  foldl reduce s actions.

(** The dependencies React remembers for the two dispatching effects:
    [None] before the first commit.  [dispatch] and the two [useCallback]
    results are the same at every render and are left out. *)
Record Hooks : Type := {
  hangupDeps : option (bool * bool);
  overflowDeps : option (bool * bool)
}.

Definition changed (previous : option (bool * bool)) (current : bool * bool) : bool :=
  bool_decide (previous ≠ Some current).

(** One commit of a render of the store [s]: an effect runs when one of its
    dependencies differs from the previous commit's.  Both effects read the
    values of the render, whatever was dispatched meanwhile. *)
Definition commit (h : Hooks) (s : Store) : Hooks * list Action :=
  let d1 := (hangupMenuVisible s, toolbarVisible s) in
  let d2 := (overflowMenuVisible s, isDialogVisible s) in
  ({| hangupDeps := Some d1; overflowDeps := Some d2 |},
   (if changed (hangupDeps h) d1 then hangupMenuEffect s else [])
   ++ (if changed (overflowDeps h) d2 then overflowMenuEffect s else [])).

(** A mounted component: the store, the remembered dependencies, and
    whether the store changed since the last commit. *)
Record Config : Type := {
  store : Store;
  hooks : Hooks;
  stale : bool
}.

Definition mount (s : Store) : Config :=
  {| store := s; hooks := {| hangupDeps := None; overflowDeps := None |}; stale := true |}.

(** The effect step relation, labelled with the actions dispatched.  A
    changed store is rendered and committed before anything else changes
    it; the store the effects leave is rendered again when they dispatched.
    Between commits the store may change in any way. *)
Inductive step : Config -> list Action -> Config -> Prop :=
| step_commit (c : Config) :
    stale c = true ->
    step c (commit (hooks c) (store c)).2
      {| store := dispatchAll (store c) (commit (hooks c) (store c)).2;
         hooks := (commit (hooks c) (store c)).1;
         stale := bool_decide ((commit (hooks c) (store c)).2 ≠ []) |}
| step_update (c : Config) (s' : Store) :
    stale c = false ->
    step c [] {| store := s'; hooks := hooks c; stale := true |}.

Inductive reachable : Config -> Prop :=
| reachable_mount (s : Store) : reachable (mount s)
| reachable_step (c c' : Config) (actions : list Action) :
    reachable c -> step c actions c' -> reachable c'.

(** *** Rendering *)

Definition endConferenceSupported (s : Store) : bool :=
  match conference s with
  | Some c => isEndConferenceSupported c && isModerator s
  | None => false
  end.

Definition newline : string := String (ascii_of_nat 10) "".

Definition rootClassNames (props : IProps) (s : Store) : string :=
  "new-toolbox " ++ (if toolbarVisible s then "visible" else "") ++ " "
  ++ (if bool_decide (toolbarButtonsToUse props s = []) then "no-buttons" else "")
  ++ " " ++ (if chatOpen s then "shift-right" else "") ++ " " ++ newline
  ++ "        "
  ++ (if JS.truthy (isConferenceJoined props) then "conference-joined-toolbox" else "").

Definition visibleButtons (props : IProps) (s : Store) : VisibleButtons :=
  getVisibleButtons
    {| arg_allButtons := useToolboxButtons (customToolbarButtons s);
       arg_buttonsWithNotifyClick := buttonsWithNotifyClick s;
       arg_toolbarButtons := toolbarButtonsToUse props s;
       arg_clientWidth := clientWidth s;
       arg_jwtDisabledButtons := jwtDisabledButtons s;
       arg_mainToolbarButtonsThresholds := mainToolbarButtonsThresholds s |}.

Definition toolMainMenuButtons (props : IProps) (s : Store) : list IToolboxButton :=
  mainMenuButtons (visibleButtons props s) ++ overflowMenuButtons (visibleButtons props s).

Definition renderButton (b : IToolboxButton) : option ButtonElement :=
  if bool_decide (Content b ≠ Separator)
  then Some {| elementType := Content b; elementProps := rest b;
               buttonKey := key b; elementKey := key b |}
  else None.

Definition renderHangup (props : IProps) (s : Store) : option HangupControl :=
  if isButtonEnabled "hangup" (toolbarButtonsToUse props s) then
    Some
      (if endConferenceSupported s then
         HangupMenuButton "hangup-menu" (hangupMenuVisible s) "hangup-menu"
           (buttonsWithNotifyClick s !! "hangup-menu") OnSetHangupVisible
           {| accessibilityLabel := t "toolbar.accessibilityLabel.moreActionsMenu";
              menuClassName := classes_hangupMenu;
              hidden := false;
              inDrawer := overflowDrawer s;
              onKeyDown := OnEscKey;
              menuItems :=
                [EndConferenceButton "end-meeting" (buttonsWithNotifyClick s !! "end-meeting");
                 LeaveConferenceButton "hangup" (buttonsWithNotifyClick s !! "hangup")] |}
       else
         HangupButton "hangup" "hangup-button" "hangup-button"
           (buttonsWithNotifyClick s !! "hangup")
           (isButtonEnabled "hangup" (toolbarButtonsToUse props s)))
  else None.

(** The component function, after its hooks: [None] is [return null]. *)
Definition Toolbox (props : IProps) (s : Store) : option Element :=
  if JS.truthy (iAmRecorder s) || JS.truthy (iAmSipGateway s) then None
  else
    let isMobile := isMobileBrowser in
    Some
      {| className := cx (rootClassNames props s)
                        (if shiftUp s then Some "shift-up" else None);
         id := "new-toolbox";
         containerClassName :=
           "toolbox-content"
           ++ (if isMobile || isNarrowLayout s then " toolbox-content-mobile" else "");
         onFocus := OnTabIn;
         mouseHandlers := if isMobile then None else Some (OnMouseOut, OnMouseOver);
         items := renderButton <$> toolMainMenuButtons props s;
         hangup := renderHangup props s |}.

(** What React puts on the page for the content row: the children that are
    elements. *)
Definition renderedButtons (e : option Element) : list ButtonElement :=
  match e with
  | Some el => omap (fun child => child) (items el)
  | None => []
  end.

Definition renderedHangup (e : option Element) : option HangupControl :=
  e ≫= hangup.

End Component.

End Toolbox.

(** * The vocabulary of the properties *)

Module Words.

Import JS Toolbox.

(** [s] contains the substring [lit]. *)
Definition contains (s lit : string) : Prop :=
  exists before after : string, s = (before ++ lit ++ after)%string.

(** [s] ends with [suffix]. *)
Definition hasSuffix (s suffix : string) : Prop :=
  exists before : string, s = (before ++ suffix)%string.

(** The decimal numeral of an integer: its digits, with [-] in front of
    them below zero. *)
Definition decimal (z : Z) : string := NilZero.string_of_int (Z.to_int z).

(** [s] is a decimal number followed by [px]: what stands in front of the
    suffix is made of digits, [-] and [.] only.  The test is a wide one: it
    accepts every decimal numeral, with or without a fraction. *)
Definition isDecimalChar (c : ascii) : bool :=
  URL.isDigit c || Ascii.eqb c "-" || Ascii.eqb c ".".

Definition isDecimalPx (s : string) : bool :=
  let n := String.length s in
  endsWith s "px" && (2 <? n)%nat
  && forallb isDecimalChar (list_ascii_of_string (substring 0 (n - 2) s)).

(** The element a button of the lists is rendered as. *)
Definition buttonElement (b : IToolboxButton) : ButtonElement :=
  {| elementType := Content b; elementProps := rest b;
     buttonKey := key b; elementKey := key b |}.

(** The hangup control is the menu button holding the end-conference and the
    leave-conference entries, in this order. *)
Definition isHangupMenu (h : HangupControl) : Prop :=
  match h with
  | HangupMenuButton _ _ _ _ _ menu =>
      exists m1 m2, menuItems menu = [EndConferenceButton "end-meeting" m1;
                                      LeaveConferenceButton "hangup" m2]
  | HangupButton _ _ _ _ _ => False
  end.

Definition isPlainHangup (h : HangupControl) : Prop :=
  match h with
  | HangupMenuButton _ _ _ _ _ _ => False
  | HangupButton _ _ _ _ _ => True
  end.

#[local] Set Implicit Arguments.

Section Toolbox.

Context {CustomButtons AllButtons Jwt Features Thresholds : Type}.
Context {I : Imports CustomButtons AllButtons Jwt Features Thresholds}.

Implicit Types (props : IProps) (s : Store CustomButtons Jwt Features Thresholds)
  (c : Config CustomButtons Jwt Features Thresholds).


(** Neither [iAmRecorder] nor [iAmSipGateway] is set. *)
Definition participates s : Prop :=
  truthy (iAmRecorder s) = false /\ truthy (iAmSipGateway s) = false.

(** The conference supports ending it and the local participant is a
    moderator. *)
Definition mayEndConference s : Prop :=
  exists conf, conference s = Some conf
    /\ isEndConferenceSupported conf = true /\ isModerator s = true.

Definition hangupCondition s : bool := hangupMenuVisible s && negb (toolbarVisible s).
Definition overflowCondition s : bool := overflowMenuVisible s && isDialogVisible s.

(** What holds of every reachable configuration: an effect whose remembered
    dependencies are those of the store has nothing to close, and a store
    that was committed is the one the dependencies were taken from. *)
Definition settled c : Prop :=
  (hangupDeps (hooks c) = Some (hangupMenuVisible (store c), toolbarVisible (store c)) ->
   hangupCondition (store c) = false)
  /\ (overflowDeps (hooks c) = Some (overflowMenuVisible (store c), isDialogVisible (store c)) ->
      overflowCondition (store c) = false)
  /\ (stale c = false ->
      hangupDeps (hooks c) = Some (hangupMenuVisible (store c), toolbarVisible (store c))
      /\ overflowDeps (hooks c)
         = Some (overflowMenuVisible (store c), isDialogVisible (store c))).

(** What each effect dispatches when it has something to close. *)
Definition hangupFired : list Action :=
  [setHangupMenuVisible false; setToolbarHovered false; setToolbarHovered false].
Definition overflowFired : list Action :=
  [setOverflowMenuVisible false; setToolbarHovered false; setToolbarHovered false].

(** The actions of one commit: those of the effects that run. *)
Definition effectActions s (run1 run2 : bool) : list Action :=
  (if run1 then hangupMenuEffect s else [])
  ++ (if run2 then overflowMenuEffect s else []).

End Toolbox.

End Words.

(** * Data for the examples *)

Module Samples.

Import URL Toolbox Words.

(** A host parser for the examples.  It knows the names made of lower-case
    letters and dots with a letter in them: on these the standard's host
    parser returns the name as it is (an ASCII domain with no [xn--] label,
    no forbidden code point and no number at its end).  It rejects every
    other input. *)
Definition plainHosts : HostParser := fun input _ =>
  if forallb (fun c => isLower c || Ascii.eqb c ".") input && existsb isLower input
  then Some (string_of_list_ascii input) else None.

(** Props that differ only in the shared URL. *)
Definition propsFor (videoUrl : option string) : SharedVideo.IProps Z :=
  {| SharedVideo.clientHeight := 720%Z; SharedVideo.clientWidth := 1280%Z;
     SharedVideo.filmstripVisible := true; SharedVideo.filmstripWidth := 200%Z;
     SharedVideo.isEnabled := true; SharedVideo.isOwner := true;
     SharedVideo.isResizing := false; SharedVideo.videoUrl := videoUrl |}.

(** The globals of the examples: a toolbox 80 pixels high and a filmstrip
    120 pixels high. *)
Definition globals (vertical : bool) : SharedVideo.Globals Double.t :=
  {| SharedVideo.VERTICAL_FILMSTRIP := vertical;
     SharedVideo.getToolboxHeight := Double.ofZ 80;
     SharedVideo.getFilmstripHeight := Double.ofZ 120 |}.

(** Props that differ only in the sizes. *)
Definition sized (clientHeight clientWidth filmstripWidth : Double.t)
    (filmstripVisible : bool) : SharedVideo.IProps Double.t :=
  {| SharedVideo.clientHeight := clientHeight; SharedVideo.clientWidth := clientWidth;
     SharedVideo.filmstripVisible := filmstripVisible;
     SharedVideo.filmstripWidth := filmstripWidth;
     SharedVideo.isEnabled := true; SharedVideo.isOwner := true;
     SharedVideo.isResizing := false; SharedVideo.videoUrl := None |}.

Definition microphone : IToolboxButton :=
  {| Content := Button "AudioSettingsButton"; key := "microphone";
     rest := [("group", "0")] |}.
Definition camera : IToolboxButton :=
  {| Content := Button "VideoSettingsButton"; key := "camera";
     rest := [("group", "0")] |}.
Definition separator : IToolboxButton :=
  {| Content := Separator; key := "separator"; rest := [] |}.
Definition chat : IToolboxButton :=
  {| Content := Button "ChatButton"; key := "chat"; rest := [("group", "2")] |}.

Abbreviation SampleStore := (Store (list string) (option string) (list string) (list Z)).

(** An implementation of the imports for the examples: a desktop browser,
    no button disabled by the token, a button enabled when the list names
    it, and the first three of the enabled buttons in the main menu. *)
Definition sampleImports
  : Imports (list string) (list IToolboxButton) (option string) (list string) (list Z) :=
  {| isMobileBrowser := false;
     getJwtDisabledButtons := fun _ _ _ _ => [];
     getVisibleButtons := fun args =>
       let enabled :=
         filter (fun b => key b ∈ arg_toolbarButtons args
                          \/ Content b = Separator) (arg_allButtons args) in
       {| mainMenuButtons := take 3 enabled; overflowMenuButtons := drop 3 enabled |};
     isButtonEnabled := fun name buttons => bool_decide (name ∈ buttons);
     useToolboxButtons := fun _ => [microphone; camera; separator; chat];
     t := fun label => label;
     cx := fun names extra => (names ++ default "" extra)%string;
     classes_hangupMenu := "hangupMenu";
     runShowToolbox := fun s : SampleStore => s |}.

(** A store in a conference that can be ended, with the named flags. *)
Definition storeWith (recorder : option bool) (moderator hangupMenu overflowMenu
    toolbar dialog : bool) : SampleStore :=
  {| conference := Some {| isEndConferenceSupported := true |};
     isNarrowLayout := false; clientWidth := 1280; isModerator := moderator;
     customToolbarButtons := []; iAmRecorder := recorder; iAmSipGateway := None;
     overflowDrawer := false; shiftUp := false;
     overflowMenuVisible := overflowMenu; hangupMenuVisible := hangupMenu;
     buttonsWithNotifyClick := ∅;
     reduxToolbarButtons := ["microphone"; "camera"; "chat"; "hangup"]%string;
     chatOpen := false; isDialogVisible := dialog; jwt := None;
     localParticipantFeatures := None; transcribing := false;
     toolbarVisible := toolbar; mainToolbarButtonsThresholds := [];
     hovered := true |}.

Definition noProps : IProps :=
  {| isConferenceJoined := Some true; toolbarButtons := None |}.

(** A toolbar that is shown and settled, then hidden while the hangup menu
    is open. *)
Definition shownAndSettled : Config (list string) (option string) (list string) (list Z) :=
  {| store := storeWith None true false false true false;
     hooks := {| hangupDeps := Some (false, true); overflowDeps := Some (false, false) |};
     stale := false |}.

Definition hangupLeftOpen : Config (list string) (option string) (list string) (list Z) :=
  {| store := storeWith None true true false false false;
     hooks := hooks shownAndSettled;
     stale := true |}.

End Samples.

(** Membership in a list that is written out. *)
Ltac list_mem :=
  intros;
  repeat match goal with
         | H : _ ∈ _ :: _ |- _ => apply elem_of_cons in H as [H|H]
         | H : _ ∈ [] |- _ => by apply elem_of_nil in H
         end;
  rewrite ?elem_of_cons, ?elem_of_nil;
  intuition congruence.


(** * Properties *)

(** ** The URL parser stops *)

Module URLFacts.

Import URL Samples.

Section Termination.

Context `{HostParser}.
Variable input : list ascii.

(** Every run that continues lowers the measure. *)
Lemma step_decreases (m m' : machine) :
  step input m = Continue m' -> measure input m' < measure input m.
Proof.
  unfold step, withHost, next, again, finish, measure.
  destruct m as [s p b a i u]; cbn [st pointer buffer atSignSeen insideBrackets url].
  destruct s; intros Hstep;
    repeat (case_match; try discriminate);
    try discriminate;
    injection Hstep as <-;
    repeat match goal with
           | E : (_ <? _)%nat = true |- _ => apply Nat.ltb_lt in E
           | E : (_ <? _)%nat = false |- _ => apply Nat.ltb_ge in E
           end;
    unfold push, onUrl, setBuffer, setAtSignSeen, setInsideBrackets, setPointer, goto in *;
    cbn [st pointer rank] in *;
    lia.
Qed.

Lemma run_enough (fuel : nat) (m : machine) :
  measure input m < fuel -> run input fuel m <> None.
Proof.
  revert m. induction fuel as [|fuel IH]; intros m Hlt; [lia|].
  cbn [run]. destruct (step input m) as [m'| |] eqn:Hstep; try discriminate.
  apply IH. apply step_decreases in Hstep. lia.
Qed.

End Termination.

(** The fuel [parse] gives the machine is never spent. *)
Lemma parse_terminates `{HostParser} (s : string) :
  let input := preprocess (list_ascii_of_string s) in
  is_Some (run input (S (measure input start)) start).
Proof.
  intros input.
  destruct (run input (S (measure input start)) start) eqn:E; [by eexists|].
  by apply run_enough in E; [|lia].
Qed.

(** An input with no [:] has no scheme: the parser fails on it, whatever
    the host parser. *)
Lemma scheme_state_fails `{HostParser} (input : list ascii) (fuel p : nat) (b : list ascii)
    (a i : bool) (u : t) :
  ":"%char ∉ drop p input ->
  length input - p + 2 <= fuel ->
  run input fuel (Machine Scheme p b a i u) = Some None.
Proof.
  revert p b. induction fuel as [|fuel IH]; intros p b Hno Hfuel; [lia|].
  cbn [run]. unfold step. cbn [st pointer].
  destruct (input !! p) as [c|] eqn:Hc; cbn [sat isChar].
  - rewrite (drop_S _ _ _ Hc) in Hno. apply not_elem_of_cons in Hno as [Hne Hno].
    apply lookup_lt_Some in Hc as Hlt.
    destruct (isAlphanumeric c || _).
    + unfold next. cbn [pointer push setBuffer].
      destruct (Nat.ltb_spec p (length input)) as [_|?]; [|lia].
      apply IH; [done|lia].
    + destruct (Ascii.eqb_spec ":"%char c) as [Heq|_]; [done|].
      destruct fuel; [lia|]. reflexivity.
  - destruct fuel; [lia|]. reflexivity.
Qed.

Lemma dropLeading_subset (l : list ascii) : dropLeading l ⊆ l.
Proof.
  induction l as [|a l IH]; cbn; [done|]. case_match; set_solver.
Qed.

Lemma strip_subset (cs : list ascii) : strip cs ⊆ cs.
Proof.
  unfold strip. intros x Hx.
  apply elem_of_reverse, dropLeading_subset, elem_of_reverse, dropLeading_subset in Hx. done.
Qed.

(** A string without [:] does not parse. *)
Lemma parse_no_colon `{HostParser} (s : string) :
  ":"%char ∉ list_ascii_of_string s -> parse s = None.
Proof.
  intros Hno. unfold parse.
  set (input := preprocess (list_ascii_of_string s)).
  assert (Hin : ":"%char ∉ input).
  { intros Hin. apply Hno. unfold input, preprocess in Hin.
    apply list_elem_of_filter in Hin as [_ Hin]. by apply strip_subset. }
  remember (measure input start) as fuel eqn:Hfuel.
  assert (Hscheme : forall p b u, p <= 1 ->
    run input fuel (Machine Scheme p b false false u) = Some None).
  { intros p b u Hp. apply scheme_state_fails.
    - intros Hd. apply Hin. by eapply (subseteq_drop p).
    - subst fuel. unfold measure. cbn. lia. }
  cbn [run]. unfold step, start, next, again, goto, push, setBuffer, setPointer.
  cbn [st pointer buffer atSignSeen insideBrackets url].
  destruct (input !! 0) as [c|] eqn:Hc; cbn [sat].
  - destruct (isAlpha c).
    + apply lookup_lt_Some in Hc. destruct (Nat.ltb_spec 0 (length input)); [|lia].
      by rewrite Hscheme by lia.
    + subst fuel. unfold measure. cbn. reflexivity.
  - subst fuel. unfold measure. cbn. reflexivity.
Qed.

Example pathname_dot_segments :
  pathname <$> parse (hostParser:=plainHosts) "https://example.com/a/./b/../live.m3u8?x=1#t"
  = Some "/a/live.m3u8"%string.
Proof. vm_compute. reflexivity. Qed.

Example pathname_no_path :
  pathname <$> parse (hostParser:=plainHosts) "  http://example.com  " = Some "/"%string.
Proof. vm_compute. reflexivity. Qed.

Example pathname_encoded :
  pathname <$> parse (hostParser:=plainHosts) "http:\\example.com\my clip.flv"
  = Some "/my%20clip.flv"%string.
Proof. vm_compute. reflexivity. Qed.

Example pathname_drive_letter :
  pathname <$> parse (hostParser:=plainHosts) "file:///C|/clips/../a.flv"
  = Some "/C:/a.flv"%string.
Proof. vm_compute. reflexivity. Qed.

Example pathname_opaque :
  pathname <$> parse (hostParser:=plainHosts) "mailto:http" = Some "http"%string.
Proof. vm_compute. reflexivity. Qed.

Example parse_port_out_of_range :
  parse (hostParser:=plainHosts) "http://example.com:65536/" = None
  /\ (port <$> parse (hostParser:=plainHosts) "http://example.com:8080/") = Some (Some 8080%N)
  /\ (port <$> parse (hostParser:=plainHosts) "http://example.com:80/") = Some None.
Proof. vm_compute. done. Qed.

Example parse_no_host :
  parse (hostParser:=plainHosts) "http://" = None
  /\ parse (hostParser:=plainHosts) "https://user@/a.flv" = None.
Proof. vm_compute. done. Qed.

End URLFacts.

(** ** Strings: the search and the suffix test against their meaning *)

Module JSFacts.

Import JS Words.

Lemma startsWith_spec (p s : string) :
  startsWith s p = true <-> exists r : string, s = (p ++ r)%string.
Proof.
  revert s. induction p as [|a p IH]; intros s.
  - split; [intros _; by exists s|by destruct s].
  - destruct s as [|b s]; [split; [done|by intros [r ?]]|].
    cbn [startsWith]. destruct (Ascii.eqb_spec a b) as [->|Hne].
    + split.
      * intros [r ->]%IH. by exists r.
      * intros [r [= ->]]. apply IH. by exists r.
    + split; [done|]. intros [r [= ? _]]. done.
Qed.

Lemma matchLiteral_found (s lit : string) (i : nat) :
  matchLiteral s lit = Some i ->
  exists before after : string,
    s = (before ++ lit ++ after)%string /\ String.length before = i.
Proof.
  revert i. induction s as [|c s IH]; intros i; cbn [matchLiteral].
  - destruct (startsWith "" lit) eqn:E; [|done]. intros [= <-].
    apply startsWith_spec in E as [r E]. by exists ""%string, r.
  - destruct (startsWith (String c s) lit) eqn:E.
    + intros [= <-]. apply startsWith_spec in E as [r E]. by exists ""%string, r.
    + destruct (matchLiteral s lit) as [j|]; [|done]. intros [= <-].
      destruct (IH j eq_refl) as (a & b & -> & <-). by exists (String c a), b.
Qed.

Lemma matchLiteral_contains (s lit : string) :
  is_Some (matchLiteral s lit) <-> contains s lit.
Proof.
  split.
  - intros [i Hi]. apply matchLiteral_found in Hi as (a & b & -> & _). by exists a, b.
  - intros (a & b & ->). induction a as [|c a IH].
    + assert (startsWith (lit ++ b) lit = true) as E
        by (apply startsWith_spec; by exists b).
      change ("" ++ lit ++ b)%string with (lit ++ b)%string.
      destruct (lit ++ b)%string; cbn [matchLiteral]; rewrite E; by eexists.
    + change (String c a ++ lit ++ b)%string with (String c (a ++ lit ++ b)).
      cbn [matchLiteral]. destruct (startsWith _ lit); [by eexists|].
      destruct IH as [j ->]. by eexists.
Qed.

Lemma append_cons (c : ascii) (a b : string) :
  (String c a ++ b)%string = String c (a ++ b).
Proof. reflexivity. Qed.

Lemma substring_all (s : string) : substring 0 (String.length s) s = s.
Proof. induction s as [|c s IH]; [done|]. cbn. by f_equal. Qed.

Lemma substring_suffix (a b : string) :
  substring (String.length a) (String.length b) (a ++ b) = b.
Proof.
  induction a as [|c a IH]; [apply substring_all|].
  rewrite append_cons. exact IH.
Qed.

Lemma length_append (a b : string) :
  String.length (a ++ b) = String.length a + String.length b.
Proof. induction a as [|c a IH]; [done|]. rewrite append_cons. cbn. by f_equal. Qed.

Lemma substring_split (s : string) (k : nat) :
  k <= String.length s ->
  s = (substring 0 k s ++ substring k (String.length s - k) s)%string.
Proof.
  revert k. induction s as [|c s IH]; intros k Hk; cbn in *.
  - by destruct k.
  - destruct k as [|k]; cbn.
    + by rewrite substring_all.
    + rewrite append_cons. f_equal. apply IH. lia.
Qed.

Lemma endsWith_spec (s suffix : string) :
  endsWith s suffix = true <-> hasSuffix s suffix.
Proof.
  unfold endsWith, hasSuffix. split.
  - destruct (Nat.leb_spec (String.length suffix) (String.length s)) as [Hle|]; [|done].
    intros E%String.eqb_eq.
    exists (substring 0 (String.length s - String.length suffix) s).
    pose proof (substring_split s (String.length s - String.length suffix)) as Hs.
    replace (String.length s - (String.length s - String.length suffix))
      with (String.length suffix) in Hs by lia.
    rewrite E in Hs. apply Hs. lia.
  - intros [a ->]. rewrite length_append.
    destruct (Nat.leb_spec (String.length suffix) (String.length a + String.length suffix));
      [|lia].
    replace (String.length a + String.length suffix - String.length suffix)
      with (String.length a) by lia.
    rewrite substring_suffix. apply String.eqb_refl.
Qed.

End JSFacts.

(** ** Numbers: the integers of the safe range

    On the integers between [- MAX_SAFE_INTEGER] and [MAX_SAFE_INTEGER] the
    subtraction of Number values is that of the integers, rounded once, and
    the conversion to a string writes the decimal numeral. *)

Module DoubleFacts.

Import Double Words JSFacts.

#[local] Open Scope Z_scope.

Lemma append_assoc (a b c : string) : ((a ++ b) ++ c = a ++ b ++ c)%string.
Proof. induction a as [|x a IH]; [done|]. rewrite !append_cons. by f_equal. Qed.

Lemma append_empty_r (a : string) : (a ++ "")%string = a.
Proof. induction a as [|x a IH]; [done|]. rewrite append_cons. by f_equal. Qed.

(** *** Rounding *)

Lemma oddPart_spec p e m e' :
  oddPart p e = (m, e') ->
  e <= e' /\ Zpos p = Zpos m * 2 ^ (e' - e) /\ Z.odd (Zpos m) = true.
Proof.
  revert e. induction p as [p IH|p IH|]; intros e; cbn [oddPart].
  - intros [= <- <-]. rewrite Z.sub_diag. split; [lia|]. split; [lia|done].
  - intros (Hle & Hv & Ho)%IH. split; [lia|]. split; [|done].
    rewrite Pos2Z.inj_xO, Hv.
    replace (e' - e) with (Z.succ (e' - (e + 1))) by lia.
    rewrite Z.pow_succ_r by lia. lia.
  - intros [= <- <-]. rewrite Z.sub_diag. split; [lia|]. split; [lia|done].
Qed.

(** A number is the product of an odd number and a power of 2 in one way. *)
Lemma odd_pow2_unique a b i j :
  Z.odd a = true -> Z.odd b = true -> 0 <= i -> 0 <= j ->
  a * 2 ^ i = b * 2 ^ j -> a = b /\ i = j.
Proof.
  assert (forall a b i j, Z.odd a = true -> 0 <= i -> i < j ->
            a * 2 ^ i = b * 2 ^ j -> False) as Hlt.
  { clear. intros a b i j Ha Hi Hij E.
    replace j with (i + Z.succ (j - i - 1)) in E by lia.
    rewrite Z.pow_add_r, Z.pow_succ_r in E by lia.
    assert (a = b * (2 * 2 ^ (j - i - 1))) as ->.
    { apply (Z.mul_cancel_r _ _ (2 ^ i)); [|lia].
      apply Z.pow_nonzero; lia. }
    rewrite Z.odd_mul, Z.odd_mul in Ha. cbn in Ha.
    by rewrite andb_false_r in Ha. }
  intros Ha Hb Hi Hj E.
  destruct (Z.lt_trichotomy i j) as [H|[->|H]].
  - by destruct (Hlt a b i j).
  - split; [|done]. apply (Z.mul_cancel_r _ _ (2 ^ j)); [|done].
    apply Z.pow_nonzero; lia.
  - by destruct (Hlt b a j i).
Qed.

(** [finite] reads the value [M * 2 ^ E] only. *)
Lemma finite_ext negative M1 E1 M2 E2 E0 :
  0 < M1 -> 0 < M2 -> E0 <= E1 -> E0 <= E2 ->
  M1 * 2 ^ (E1 - E0) = M2 * 2 ^ (E2 - E0) ->
  finite negative M1 E1 = finite negative M2 E2.
Proof.
  intros H1 H2 HE1 HE2 E.
  destruct M1 as [|p1|]; [lia| |lia]. destruct M2 as [|p2|]; [lia| |lia].
  unfold finite.
  destruct (oddPart p1 E1) as [m1 e1] eqn:O1. destruct (oddPart p2 E2) as [m2 e2] eqn:O2.
  apply oddPart_spec in O1 as (L1 & V1 & Odd1). apply oddPart_spec in O2 as (L2 & V2 & Odd2).
  rewrite V1, V2, <- !Z.mul_assoc, <- !Z.pow_add_r in E by lia.
  apply odd_pow2_unique in E as [[= ->] E]; [|done|done|lia|lia].
  by replace e2 with e1 by lia.
Qed.

Lemma finite_value negative M E s m e :
  0 <= E -> finite negative M E = Finite s m e ->
  s = negative /\ 0 <= e /\ Zpos m * 2 ^ e = M * 2 ^ E.
Proof.
  intros HE. unfold finite. destruct M as [|p|]; [done| |done].
  destruct (oddPart p E) as [m' e'] eqn:O. apply oddPart_spec in O as (L & V & _).
  destruct (_ <? _); [done|]. intros [= <- <- <-]. split; [done|]. split; [lia|].
  rewrite V, <- Z.mul_assoc, <- Z.pow_add_r by lia. do 2 f_equal. lia.
Qed.

Lemma finite_small z :
  0 < z < 2 ^ 53 ->
  exists m e, (forall negative, finite negative z 0 = Finite negative m e)
              /\ 0 <= e /\ Zpos m * 2 ^ e = z.
Proof.
  intros Hz. unfold finite. destruct z as [|p|]; [lia| |lia].
  destruct (oddPart p 0) as [m e] eqn:O. apply oddPart_spec in O as (L & V & _).
  rewrite Z.sub_0_r in V.
  assert (e + Z.log2 (Zpos m) = Z.log2 (Zpos p)) as Hlog.
  { rewrite V, Z.log2_mul_pow2 by lia. lia. }
  assert (Z.log2 (Zpos p) < 53) by (apply Z.log2_lt_pow2; lia).
  destruct (Z.ltb_spec 1024 (e + Z.log2 (Zpos m) + 1)); [lia|].
  exists m, e. by rewrite V.
Qed.

Lemma floorLog2_1 p : 0 < p -> floorLog2 p 1 = Z.log2 p.
Proof.
  intros Hp. unfold floorLog2. cbn [Z.log2]. rewrite Z.sub_0_r.
  pose proof (Z.log2_nonneg p). pose proof (Z.log2_spec p Hp) as [Hlo _].
  rewrite Z.max_r, Z.max_l by lia. rewrite Z.pow_0_r.
  destruct (Z.ltb_spec (p * 1) (1 * 2 ^ Z.log2 p)); lia.
Qed.

(** An integer of at most 53 bits is its own Number value. *)
Lemma round_small negative p :
  0 < p < 2 ^ 53 -> round negative p 1 = finite negative p 0.
Proof.
  intros Hp. unfold round. rewrite floorLog2_1 by lia.
  pose proof (Z.log2_nonneg p).
  assert (Z.log2 p < 53) by (apply Z.log2_lt_pow2; lia).
  rewrite (Z.max_l (Z.log2 p - 52)) by lia.
  rewrite (Z.max_l (- (Z.log2 p - 52))), (Z.max_r (Z.log2 p - 52)) by lia.
  rewrite Z.pow_0_r, Z.mul_1_l, Z.div_1_r, Z.mod_1_r. change (2 * 0) with 0.
  cbn [Z.ltb Z.eqb Z.compare orb andb].
  apply (finite_ext _ _ _ _ _ (Z.log2 p - 52)); [|lia|lia|lia|].
  - apply Z.mul_pos_pos; [lia|]. apply Z.pow_pos_nonneg; lia.
  - rewrite Z.sub_diag, Z.pow_0_r, Z.mul_1_r. reflexivity.
Qed.

(** The Number value for an integer from [2 ^ 53] on is not below [2 ^ 53]. *)
Lemma round_large negative v s m e :
  2 ^ 53 <= v -> round negative v 1 = Finite s m e ->
  0 <= e /\ 2 ^ 53 <= Zpos m * 2 ^ e.
Proof.
  intros Hv. unfold round. rewrite floorLog2_1 by lia.
  assert (53 <= Z.log2 v) by (apply Z.log2_le_pow2; lia).
  pose proof (Z.log2_spec v ltac:(lia)) as [Hlo _].
  rewrite (Z.max_l (Z.log2 v - 52)) by lia.
  rewrite (Z.max_r (- (Z.log2 v - 52))), (Z.max_l (Z.log2 v - 52)) by lia.
  rewrite Z.pow_0_r, Z.mul_1_r, Z.mul_1_l.
  set (E := Z.log2 v - 52) in *.
  assert (0 < 2 ^ E) as HE by (apply Z.pow_pos_nonneg; lia).
  assert (2 ^ 52 <= v / 2 ^ E) as HQ.
  { apply Z.div_le_lower_bound; [done|]. rewrite <- Z.pow_add_r by lia.
    by replace (E + 52) with (Z.log2 v) by lia. }
  intros (_ & He & Hval)%finite_value; [|lia]. split; [done|]. rewrite Hval.
  assert (2 ^ 52 <= (if (2 ^ E <? 2 * (v mod 2 ^ E))
                        || (2 ^ E =? 2 * (v mod 2 ^ E)) && Z.odd (v / 2 ^ E)
                      then v / 2 ^ E + 1 else v / 2 ^ E)) as HQ'
    by (destruct (_ || _); lia).
  assert (2 <= 2 ^ E).
  { replace E with (Z.succ (E - 1)) by lia. rewrite Z.pow_succ_r by lia.
    assert (0 < 2 ^ (E - 1)) by (apply Z.pow_pos_nonneg; lia). lia. }
  change (2 ^ 53) with (2 ^ 52 * 2). nia.
Qed.

(** No other integer has the Number value of an integer below [2 ^ 53]. *)
Lemma round_exact z v :
  0 < z < 2 ^ 53 -> 0 <= v -> round false v 1 = finite false z 0 -> v = z.
Proof.
  intros Hz Hv E. destruct (finite_small z Hz) as (m & e & Hf & He & Hval).
  rewrite Hf in E.
  destruct (Z.lt_ge_cases v (2 ^ 53)) as [Hsmall|Hlarge].
  - destruct (Z.eq_dec v 0) as [->|Hne]; [done|].
    rewrite round_small in E by lia.
    apply finite_value in E as (_ & _ & E); [|lia]. lia.
  - apply round_large in E as [_ E]; [|done]. lia.
Qed.

(** What [round] and [subtract] return is a Number value. *)
Lemma scale_lt p q a c i j :
  0 < q -> 0 <= a -> 0 <= c -> 0 <= i -> 0 <= j -> c - a <= j - i ->
  p * 2 ^ a < q * 2 ^ c -> p * 2 ^ i < q * 2 ^ j.
Proof.
  intros Hq Ha Hc Hi Hj Hd H.
  assert (0 < 2 ^ a) by (apply Z.pow_pos_nonneg; lia).
  assert (0 < 2 ^ i) by (apply Z.pow_pos_nonneg; lia).
  assert (2 ^ (c + i) <= 2 ^ (j + a)) as Hle by (apply Z.pow_le_mono_r; lia).
  rewrite !Z.pow_add_r in Hle by lia.
  apply (Z.mul_lt_mono_pos_r (2 ^ a)); [done|]. nia.
Qed.

Lemma floorLog2_upper p q i j :
  0 < p -> 0 < q -> 0 <= i -> 0 <= j -> floorLog2 p q + 1 <= j - i ->
  p * 2 ^ i < q * 2 ^ j.
Proof.
  intros Hp Hq Hi Hj. unfold floorLog2.
  pose proof (Z.log2_nonneg p). pose proof (Z.log2_nonneg q).
  pose proof (Z.log2_spec p Hp) as [_ Hphi]. pose proof (Z.log2_spec q Hq) as [Hqlo _].
  destruct (Z.ltb_spec (p * 2 ^ Z.max (- (Z.log2 p - Z.log2 q)) 0)
              (q * 2 ^ Z.max (Z.log2 p - Z.log2 q) 0)) as [Hlt|_]; intros Hd.
  - eapply scale_lt; [done| | | | | |exact Hlt]; lia.
  - assert (2 ^ (Z.succ (Z.log2 p) + i) <= 2 ^ (Z.log2 q + j)) as Hle
      by (apply Z.pow_le_mono_r; lia).
    rewrite !Z.pow_add_r in Hle by lia.
    assert (0 < 2 ^ i) by (apply Z.pow_pos_nonneg; lia).
    assert (0 < 2 ^ j) by (apply Z.pow_pos_nonneg; lia). nia.
Qed.

Lemma finite_isNumber negative M E :
  0 <= M <= 2 ^ 53 -> -1074 <= E -> isNumber (finite negative M E) = true.
Proof.
  intros HM HE. unfold finite. destruct M as [|p|]; [done| |done].
  destruct (oddPart p E) as [m e] eqn:O. apply oddPart_spec in O as (L & V & Odd).
  destruct (Z.ltb_spec 1024 (e + Z.log2 (Z.pos m) + 1)); [done|].
  cbn [isNumber]. rewrite Odd.
  assert (0 < 2 ^ (e - E)) by (apply Z.pow_pos_nonneg; lia).
  assert (Z.pos m <> 2 ^ 53) by (intros E'; by rewrite E' in Odd).
  destruct (Z.ltb_spec (Z.pos m) (2 ^ 53)); [|nia].
  destruct (Z.leb_spec (-1074) e); [|lia].
  destruct (Z.leb_spec (e + Z.log2 (Z.pos m) + 1) 1024); [done|lia].
Qed.

Lemma round_isNumber negative p q :
  0 <= p -> 0 < q -> isNumber (round negative p q) = true.
Proof.
  intros Hp Hq. unfold round.
  set (E := Z.max (floorLog2 p q - 52) (-1074)).
  assert (0 < q * 2 ^ Z.max E 0) as Hd.
  { apply Z.mul_pos_pos; [done|]. apply Z.pow_pos_nonneg; lia. }
  assert (0 <= p * 2 ^ Z.max (- E) 0) as Hn.
  { apply Z.mul_nonneg_nonneg; [done|]. apply Z.pow_nonneg; lia. }
  pose proof (Z.div_pos _ _ Hn Hd) as HQ.
  assert (p * 2 ^ Z.max (- E) 0 / (q * 2 ^ Z.max E 0) < 2 ^ 53) as HQ'.
  { apply Z.div_lt_upper_bound; [done|].
    destruct (Z.eq_dec p 0) as [->|Hne].
    - rewrite Z.mul_0_l. lia.
    - rewrite <- Z.mul_assoc, <- Z.pow_add_r by lia.
      apply floorLog2_upper; lia. }
  apply finite_isNumber; [|lia]. destruct (_ || _); lia.
Qed.

Lemma scale_le p q a c i j :
  0 < p -> 0 <= a -> 0 <= c -> 0 <= i -> 0 <= j -> j - i <= c - a ->
  q * 2 ^ c <= p * 2 ^ a -> q * 2 ^ j <= p * 2 ^ i.
Proof.
  intros Hp Ha Hc Hi Hj Hd H.
  assert (0 < 2 ^ c) by (apply Z.pow_pos_nonneg; lia).
  assert (0 < 2 ^ j) by (apply Z.pow_pos_nonneg; lia).
  assert (2 ^ (j + a) <= 2 ^ (c + i)) as Hle by (apply Z.pow_le_mono_r; lia).
  rewrite !Z.pow_add_r in Hle by lia.
  apply (Z.mul_le_mono_pos_r _ _ (2 ^ c)); [done|]. nia.
Qed.

Lemma floorLog2_lower p q i j :
  0 < p -> 0 < q -> 0 <= i -> 0 <= j -> j - i <= floorLog2 p q ->
  q * 2 ^ j <= p * 2 ^ i.
Proof.
  intros Hp Hq Hi Hj. unfold floorLog2.
  pose proof (Z.log2_nonneg p). pose proof (Z.log2_nonneg q).
  pose proof (Z.log2_spec p Hp) as [Hplo _]. pose proof (Z.log2_spec q Hq) as [_ Hqhi].
  destruct (Z.ltb_spec (p * 2 ^ Z.max (- (Z.log2 p - Z.log2 q)) 0)
              (q * 2 ^ Z.max (Z.log2 p - Z.log2 q) 0)) as [_|Hle]; intros Hd.
  - assert (2 ^ (Z.succ (Z.log2 q) + j) <= 2 ^ (Z.log2 p + i)) as Hle
      by (apply Z.pow_le_mono_r; lia).
    rewrite !Z.pow_add_r in Hle by lia.
    assert (0 < 2 ^ i) by (apply Z.pow_pos_nonneg; lia).
    assert (0 < 2 ^ j) by (apply Z.pow_pos_nonneg; lia). nia.
  - eapply scale_le; [done| | | | | |exact Hle]; lia.
Qed.

(** [round] is rounding to the nearest Number value, to the even one of two
    that are as near: the result is [Q * 2 ^ E] with [Q] of 53 bits, or
    with [E] the exponent of the subnormal values, and [p / q] is no further
    from it than half of [2 ^ E]. *)
Lemma round_spec negative p q :
  0 < p -> 0 < q ->
  exists Q E,
    round negative p q = finite negative Q E
    /\ -1074 <= E
    /\ 0 <= Q <= 2 ^ 53 /\ (2 ^ 52 <= Q \/ E = -1074)
    /\ Z.abs (2 * (p * 2 ^ Z.max (- E) 0) - 2 * Q * (q * 2 ^ Z.max E 0))
       <= q * 2 ^ Z.max E 0
    /\ (Z.abs (2 * (p * 2 ^ Z.max (- E) 0) - 2 * Q * (q * 2 ^ Z.max E 0))
        = q * 2 ^ Z.max E 0 -> Z.even Q = true).
Proof.
  intros Hp Hq. unfold round.
  set (E := Z.max (floorLog2 p q - 52) (-1074)).
  set (n := p * 2 ^ Z.max (- E) 0). set (d := q * 2 ^ Z.max E 0).
  assert (0 < d) as Hd.
  { apply Z.mul_pos_pos; [done|]. apply Z.pow_pos_nonneg; lia. }
  assert (0 < n) as Hn.
  { apply Z.mul_pos_pos; [done|]. apply Z.pow_pos_nonneg; lia. }
  pose proof (Z.div_mod n d ltac:(lia)) as Hdiv.
  pose proof (Z.mod_pos_bound n d Hd) as Hmod.
  assert (0 <= n / d) as HQ by (apply Z.div_pos; lia).
  assert (n / d < 2 ^ 53) as HQ'.
  { apply Z.div_lt_upper_bound; [done|]. unfold n, d.
    rewrite <- Z.mul_assoc, <- Z.pow_add_r by lia. apply floorLog2_upper; lia. }
  assert (2 ^ 52 <= n / d \/ E = -1074) as Hprec.
  { destruct (Z.eq_dec E (-1074)) as [|HE]; [by right|left].
    apply Z.div_le_lower_bound; [done|]. unfold n, d.
    rewrite <- Z.mul_assoc, <- Z.pow_add_r by lia.
    apply floorLog2_lower; lia. }
  exists (if (d <? 2 * (n mod d)) || (d =? 2 * (n mod d)) && Z.odd (n / d)
          then n / d + 1 else n / d), E.
  split; [done|]. split; [lia|].
  destruct (Z.ltb_spec d (2 * (n mod d))); cbn [orb].
  - split; [lia|]. split; [lia|]. split; lia.
  - destruct (Z.eqb_spec d (2 * (n mod d))); cbn [andb].
    + destruct (Z.odd (n / d)) eqn:Hodd.
      * split; [lia|]. split; [lia|]. split; [lia|]. intros _.
        rewrite Z.even_add, <- Z.negb_odd, Hodd. done.
      * split; [lia|]. split; [lia|]. split; [lia|]. intros _.
        by rewrite <- Z.negb_odd, Hodd.
    + split; [lia|]. split; [lia|]. split; lia.
Qed.

Lemma ofQ_isNumber p q : 0 < q -> isNumber (ofQ p q) = true.
Proof. intros Hq. unfold ofQ. apply round_isNumber; lia. Qed.

Lemma subtract_isNumber x y :
  isNumber x = true -> isNumber y = true -> isNumber (subtract x y) = true.
Proof.
  intros Hx Hy.
  destruct x as [|a|a|a m1 e1], y as [|b|b|b m2 e2]; cbn [subtract]; try done.
  - by destruct (Bool.eqb a b).
  - apply ofQ_isNumber. apply Z.pow_pos_nonneg; lia.
Qed.

Lemma ofZ_0 : ofZ 0 = Zero false.
Proof. reflexivity. Qed.

Lemma ofZ_finite z :
  z <> 0 -> isSafeInteger z -> ofZ z = finite (z <? 0) (Z.abs z) 0.
Proof.
  intros Hne Hz. unfold isSafeInteger, MAX_SAFE_INTEGER in Hz.
  unfold ofZ, ofQ. apply round_small. lia.
Qed.

Lemma ofZ_safe z :
  z <> 0 -> isSafeInteger z ->
  exists m e, ofZ z = Finite (z <? 0) m e /\ 0 <= e
              /\ signed (z <? 0) m * 2 ^ e = z
              /\ forall negative, finite negative (Z.abs z) 0 = Finite negative m e.
Proof.
  intros Hne Hz. rewrite ofZ_finite by done.
  unfold isSafeInteger, MAX_SAFE_INTEGER in Hz.
  destruct (finite_small (Z.abs z)) as (m & e & Hf & He & Hval); [lia|].
  exists m, e. split; [done|]. split; [done|]. split; [|done].
  unfold signed. destruct (Z.ltb_spec z 0).
  - change (Z.neg m) with (- Z.pos m). lia.
  - lia.
Qed.

(** *** Subtraction

    The difference of two safe integers is the Number value for their
    difference: the integer itself when it is safe. *)
Lemma subtract_ofZ a b :
  isSafeInteger a -> isSafeInteger b -> subtract (ofZ a) (ofZ b) = ofZ (a - b).
Proof.
  intros Ha Hb.
  destruct (Z.eq_dec a 0) as [->|Hane]; destruct (Z.eq_dec b 0) as [->|Hbne].
  - reflexivity.
  - destruct (ofZ_safe b Hbne Hb) as (m & e & -> & He & Hval & Hf).
    rewrite ofZ_0. cbn [subtract].
    assert (isSafeInteger (0 - b)) as Hb' by (unfold isSafeInteger in *; lia).
    rewrite ofZ_finite by (done || lia).
    replace (Z.abs (0 - b)) with (Z.abs b) by lia. rewrite Hf. f_equal.
    destruct (Z.ltb_spec b 0), (Z.ltb_spec (0 - b) 0); done || lia.
  - destruct (ofZ_safe a Hane Ha) as (m & e & E & _). rewrite Z.sub_0_r, E, ofZ_0. done.
  - destruct (ofZ_safe a Hane Ha) as (m1 & e1 & -> & He1 & Hv1 & _).
    destruct (ofZ_safe b Hbne Hb) as (m2 & e2 & -> & He2 & Hv2 & _).
    cbn [subtract]. unfold ofZ. rewrite Z.max_l, Z.max_r by lia. rewrite Z.pow_0_r.
    f_equal. rewrite Z.mul_sub_distr_r, <- !Z.mul_assoc, <- !Z.pow_add_r by lia.
    replace (e1 - Z.min e1 e2 + Z.min e1 e2) with e1 by lia.
    replace (e2 - Z.min e1 e2 + Z.min e1 e2) with e2 by lia.
    by rewrite Hv1, Hv2.
Qed.

(** *** The decimal numeral *)

(** Reading the numeral back gives the integer. *)
Lemma decimal_read_back (z : Z) :
  Z.of_int <$> NilZero.int_of_string (decimal z) = Some z.
Proof.
  unfold decimal. rewrite NilZero.isi.
  - cbn. by rewrite DecimalZ.of_to.
  - destruct z; cbn; [done| |done]. intros [= E]. by apply DecimalPos.Unsigned.to_uint_nonnil in E.
  - destruct z; cbn; [done|done|]. intros [= E]. by apply DecimalPos.Unsigned.to_uint_nonnil in E.
Qed.

Lemma string_of_revapp (l d : Decimal.uint) :
  NilEmpty.string_of_uint (Decimal.revapp l d)
  = (NilEmpty.string_of_uint (Decimal.revapp l Decimal.Nil)
     ++ NilEmpty.string_of_uint d)%string.
Proof.
  revert d. induction l as [|l IH|l IH|l IH|l IH|l IH|l IH|l IH|l IH|l IH|l IH]; intros d;
    [done|cbn [Decimal.revapp]; rewrite (IH (_ d)), (IH (_ Decimal.Nil)), append_assoc; done..].
Qed.

Lemma digits_tenfold s : 0 < s -> digits (10 * s) = (digits s ++ "0")%string.
Proof.
  intros Hs. destruct s as [|p|]; [lia| |lia]. unfold digits.
  change (Z.to_N (10 * Z.pos p)) with (N.pos (10 * p)). cbn [Z.to_N N.to_uint].
  pose proof (Unsigned.to_ldec_tenfold p) as E.
  change (10 * N.pos p)%N with (N.pos (10 * p)) in E. cbn [Unsigned.to_lu] in E.
  pose proof (Unsigned.to_uint_nonnil p) as Hp.
  unfold Pos.to_uint, Decimal.rev in *. rewrite E. cbn [Decimal.revapp].
  assert (Decimal.revapp (Pos.to_little_uint p) (Decimal.D0 Decimal.Nil) <> Decimal.Nil) as Hp'.
  { intros [_ ?]%revapp_nil_inv. done. }
  assert (forall d, d <> Decimal.Nil -> NilZero.string_of_uint d = NilEmpty.string_of_uint d)
    as Hnz by (by intros []).
  rewrite !Hnz by done. apply string_of_revapp.
Qed.

Lemma digits_pow10 s (n : nat) :
  0 < s -> digits (s * 10 ^ Z.of_nat n) = (digits s ++ zeros n)%string.
Proof.
  intros Hs. induction n as [|n IH].
  - cbn [zeros]. by rewrite Z.mul_1_r, append_empty_r.
  - rewrite Nat2Z.inj_succ, Z.pow_succ_r by lia.
    replace (s * (10 * 10 ^ Z.of_nat n)) with (10 * (s * 10 ^ Z.of_nat n)) by lia.
    rewrite digits_tenfold, IH.
    + rewrite append_assoc. f_equal. clear. induction n as [|n IH]; [done|].
      cbn [zeros]. rewrite append_cons. by f_equal.
    + apply Z.mul_pos_pos; [done|]. apply Z.pow_pos_nonneg; lia.
Qed.

Lemma decimal_pos z : 0 < z -> decimal z = digits z.
Proof. intros Hz. destruct z; [lia| |lia]. reflexivity. Qed.

Lemma decimal_neg z : z < 0 -> decimal z = ("-" ++ digits (- z))%string.
Proof. intros Hz. destruct z; [lia|lia|]. reflexivity. Qed.

(** A decimal numeral followed by [px] passes the test of the vocabulary. *)
Lemma isDecimalPx_decimal z : isDecimalPx (decimal z ++ "px") = true.
Proof.
  assert (forall d, forallb isDecimalChar
                      (list_ascii_of_string (NilEmpty.string_of_uint d)) = true) as Hd.
  { induction d; cbn; by rewrite ?IHd. }
  assert (forallb isDecimalChar (list_ascii_of_string (decimal z)) = true
          /\ (0 < String.length (decimal z))%nat) as [Hchars Hlen].
  { assert (forall d, forallb isDecimalChar
                        (list_ascii_of_string (NilZero.string_of_uint d)) = true
                      /\ (0 < String.length (NilZero.string_of_uint d))%nat) as Hz.
    { intros d. split; [destruct d; try done; apply Hd|]. destruct d; cbn; lia. }
    unfold decimal. destruct (Z.to_int z) as [d|d]; cbn [NilZero.string_of_int].
    - apply Hz.
    - destruct (Hz d) as [H1 H2]. cbn. split; [done|lia]. }
  unfold isDecimalPx. rewrite length_append. cbn [String.length].
  rewrite (proj2 (endsWith_spec _ _)) by (by eexists).
  destruct (Nat.ltb_spec 2 (String.length (decimal z) + 2)); [|lia]. cbn [andb].
  replace (String.length (decimal z) + 2 - 2)%nat with (String.length (decimal z)) by lia.
  assert (forall a b, substring 0 (String.length a) (a ++ b) = a) as ->; [|done].
  clear. induction a as [|c a IH]; intros b; [by destruct b|].
  rewrite append_cons. cbn. by rewrite IH.
Qed.

(** *** The conversion to a string *)

Lemma below_integer z n : 1 <= z -> below z 1 n = true <-> 0 <= n /\ z < 10 ^ n.
Proof.
  intros Hz. unfold below. rewrite Z.ltb_lt.
  destruct (Z.le_gt_cases 0 n) as [Hn|Hn].
  - rewrite Z.max_r, Z.max_l by lia. rewrite Z.pow_0_r. lia.
  - rewrite Z.max_l, Z.max_r by lia. rewrite Z.pow_0_r.
    assert (0 < 10 ^ (- n)) by (apply Z.pow_pos_nonneg; lia). nia.
Qed.

Lemma countUp_spec fuel p q n N :
  0 < q -> 1 <= n <= N -> N < n + Z.of_nat fuel ->
  q * 10 ^ (n - 1) <= p -> p < q * 10 ^ N ->
  q * 10 ^ (countUp fuel p (q * 10 ^ n) n - 1) <= p < q * 10 ^ countUp fuel p (q * 10 ^ n) n
  /\ 1 <= countUp fuel p (q * 10 ^ n) n.
Proof.
  intros Hq. revert n. induction fuel as [|fuel IH]; intros n Hn Hfuel Hlo Hhi; [lia|].
  cbn [countUp]. destruct (Z.ltb_spec p (q * 10 ^ n)) as [Hlt|Hge]; [lia|].
  destruct (Z.eq_dec n N) as [->|?]; [lia|].
  replace (10 * (q * 10 ^ n)) with (q * 10 ^ (n + 1))
    by (rewrite Z.pow_add_r by lia; lia).
  apply IH; [lia|lia| |done]. by replace (n + 1 - 1) with n by lia.
Qed.

Lemma countDown_spec fuel p q n K :
  0 < p -> n <= 0 -> K <= - n + Z.of_nat fuel ->
  p * 10 ^ (- n) < q -> q <= p * 10 ^ K ->
  p * 10 ^ (- countDown fuel (p * 10 ^ (- n)) q n) < q
  /\ q <= p * 10 ^ (- countDown fuel (p * 10 ^ (- n)) q n + 1)
  /\ countDown fuel (p * 10 ^ (- n)) q n <= 0.
Proof.
  intros Hp. revert n. induction fuel as [|fuel IH]; intros n Hn Hfuel Hlo Hhi.
  - assert (10 ^ K <= 10 ^ (- n)) by (apply Z.pow_le_mono_r; lia). nia.
  - cbn [countDown].
    replace (10 * (p * 10 ^ (- n))) with (p * 10 ^ (- (n - 1)))
      by (replace (- (n - 1)) with (- n + 1) by lia; rewrite Z.pow_add_r by lia; lia).
    destruct (Z.ltb_spec (p * 10 ^ (- (n - 1))) q) as [Hlt|Hge].
    + apply IH; [lia| |done|done].
      destruct (Z.le_gt_cases K (- n)); [|lia].
      assert (10 ^ K <= 10 ^ (- n)) by (apply Z.pow_le_mono_r; lia). nia.
    + replace (- n + 1) with (- (n - 1)) by lia. lia.
Qed.

(** [magnitude] is the [n] of step 5: [10 ^ (n - 1) <= p / q < 10 ^ n]. *)
Lemma magnitude_spec p q :
  0 < p -> 0 < q -> p < q * 10 ^ 309 -> q <= p * 10 ^ 324 ->
  below p q (magnitude p q) = true /\ below p q (magnitude p q - 1) = false.
Proof.
  intros Hp Hq Hhi Hlo. unfold magnitude, below. rewrite Z.ltb_lt, Z.ltb_ge.
  destruct (Z.ltb_spec p q) as [Hlt|Hge].
  - destruct (countDown_spec 330 p q 0 324 Hp) as (H1 & H2 & H3);
      [lia|lia|by rewrite Z.mul_1_r|done|].
    rewrite Z.mul_1_r in *. set (r := countDown 330 p q 0) in *.
    rewrite (Z.max_l (- r)), (Z.max_r r), (Z.max_l (- (r - 1))), (Z.max_r (r - 1)) by lia.
    rewrite Z.pow_0_r, !Z.mul_1_r. replace (- (r - 1)) with (- r + 1) by lia. done.
  - destruct (countUp_spec 310 p q 1 309 Hq) as ([H1 H2] & H3);
      [lia|lia|by rewrite Z.mul_1_r|done|].
    change (q * 10 ^ 1) with (q * 10) in *. rewrite (Z.mul_comm q 10) in *.
    set (r := countUp 310 p (10 * q) 1) in *.
    rewrite (Z.max_r (- r)), (Z.max_l r), (Z.max_r (- (r - 1))), (Z.max_l (r - 1)) by lia.
    rewrite Z.pow_0_r, !Z.mul_1_r. done.
Qed.

(** The bounds hold of every Number value. *)
Lemma number_bounds negative m e :
  isNumber (Finite negative m e) = true ->
  Zpos m * 2 ^ Z.max e 0 < 2 ^ Z.max (- e) 0 * 10 ^ 309
  /\ 2 ^ Z.max (- e) 0 <= Zpos m * 2 ^ Z.max e 0 * 10 ^ 324.
Proof.
  cbn [isNumber]. rewrite !andb_true_iff, Z.ltb_lt, !Z.leb_le. intros [[[_ Hm] He] Hmax].
  assert (2 ^ 1024 <= 10 ^ 309) as Hbig by (by apply Z.leb_le; vm_compute).
  assert (2 ^ 1074 <= 10 ^ 324) as Hsmall by (by apply Z.leb_le; vm_compute).
  assert (0 < 10 ^ 309) by (apply Z.pow_pos_nonneg; lia).
  assert (0 < 10 ^ 324) by (apply Z.pow_pos_nonneg; lia).
  pose proof (Z.log2_spec (Zpos m) ltac:(lia)) as [_ Hlog].
  destruct (Z.le_gt_cases 0 e).
  - rewrite (Z.max_l e), (Z.max_r (- e)) by lia. rewrite Z.pow_0_r.
    assert (0 < 2 ^ e) by (apply Z.pow_pos_nonneg; lia).
    assert (2 ^ (Z.succ (Z.log2 (Zpos m)) + e) <= 2 ^ 1024) as Hle
      by (apply Z.pow_le_mono_r; lia).
    rewrite Z.pow_add_r in Hle by (pose proof (Z.log2_nonneg (Zpos m)); lia).
    split; nia.
  - rewrite (Z.max_r e), (Z.max_l (- e)) by lia. rewrite Z.pow_0_r, Z.mul_1_r.
    assert (0 < 2 ^ (- e)) by (apply Z.pow_pos_nonneg; lia).
    assert (2 ^ (- e) <= 2 ^ 1074) by (apply Z.pow_le_mono_r; lia).
    split; nia.
Qed.

Lemma magnitude_integer z :
  0 < z < 2 ^ 53 -> 1 <= magnitude z 1 <= 16 /\ z < 10 ^ magnitude z 1.
Proof.
  intros Hz.
  assert (0 < 10 ^ 309) by (apply Z.pow_pos_nonneg; lia).
  assert (0 < 10 ^ 324) by (apply Z.pow_pos_nonneg; lia).
  destruct (magnitude_spec z 1) as [Hb Hb']; [lia|lia|nia|nia|].
  apply below_integer in Hb as [Hn0 Hlt]; [|lia]. split; [|done]. split.
  - destruct (Z.eq_dec (magnitude z 1) 0) as [E|?]; [|lia]. rewrite E in Hlt. lia.
  - destruct (Z.le_gt_cases (magnitude z 1) 16) as [|Hn]; [done|].
    assert (below z 1 (magnitude z 1 - 1) = true); [|congruence].
    apply below_integer; [lia|]. split; [lia|].
    assert (10 ^ 16 <= 10 ^ (magnitude z 1 - 1)) by (apply Z.pow_le_mono_r; lia). lia.
Qed.

(** For an integer below [2 ^ 53], [k] digits qualify exactly when they are
    all its digits that are not zeros at its end. *)
Lemma candidate_integer z n k :
  0 < z < 2 ^ 53 -> 1 <= k <= n ->
  candidate (finite false z 0) z 1 n k
  = if z mod 10 ^ (n - k) =? 0 then Some (n, k, z / 10 ^ (n - k)) else None.
Proof.
  intros Hz Hk. unfold candidate.
  rewrite (Z.max_r (- (n - k))), (Z.max_l (n - k)) by lia.
  rewrite Z.pow_0_r, Z.mul_1_r, Z.mul_1_l.
  set (t := 10 ^ (n - k)).
  assert (0 < t) as Ht by (apply Z.pow_pos_nonneg; lia).
  pose proof (Z.div_mod z t ltac:(lia)) as Hdiv.
  pose proof (Z.mod_pos_bound z t Ht) as Hmod.
  assert (0 <= z / t) by (apply Z.div_pos; lia).
  rewrite (bool_decide_eq_false_2 (round false ((z / t + 1) * t) 1 = _)).
  2: { intros E%round_exact; [|done|]; nia. }
  destruct (Z.eqb_spec (z mod t) 0) as [E0|Hne].
  - rewrite bool_decide_eq_true_2; [done|].
    replace (z / t * t) with z by lia. by apply round_small.
  - rewrite bool_decide_eq_false_2; [done|].
    intros E%round_exact; [|done|]; nia.
Qed.

Lemma shortest_integer fuel z n k :
  0 < z < 2 ^ 53 -> 1 <= k <= n -> n - k < Z.of_nat fuel ->
  exists k' s, k <= k' <= n
    /\ shortest fuel (finite false z 0) z 1 n k = (n, k', s)
    /\ s * 10 ^ (n - k') = z.
Proof.
  intros Hz. revert k. induction fuel as [|fuel IH]; intros k Hk Hfuel; [lia|].
  cbn [shortest]. rewrite candidate_integer by done.
  assert (0 < 10 ^ (n - k)) as Ht by (apply Z.pow_pos_nonneg; lia).
  destruct (Z.eqb_spec (z mod 10 ^ (n - k)) 0) as [E0|Hne].
  - exists k, (z / 10 ^ (n - k)). split; [lia|]. split; [done|].
    pose proof (Z.div_mod z (10 ^ (n - k)) ltac:(lia)). lia.
  - destruct (Z.eq_dec k n) as [->|?].
    { rewrite Z.sub_diag, Z.pow_0_r, Z.mod_1_r in Hne. done. }
    destruct (IH (k + 1)) as (k' & s & ? & ? & ?); [lia|lia|].
    exists k', s. split; [lia|done].
Qed.

Lemma format_integer n k s :
  1 <= k <= n -> n <= 21 -> 0 < s ->
  format n k s = digits (s * 10 ^ (n - k)).
Proof.
  intros Hk Hn Hs. unfold format.
  destruct (Z.leb_spec (-5) n); [|lia]. destruct (Z.leb_spec n 21); [|lia].
  destruct (Z.leb_spec k n); [|lia]. cbn [andb].
  rewrite <- digits_pow10 by done. by rewrite Z2Nat.id by lia.
Qed.

Lemma toString_positive z : 0 < z < 2 ^ 53 -> toString (ofZ z) = digits z.
Proof.
  intros Hz.
  assert (isSafeInteger z) as Hsafe by (unfold isSafeInteger, MAX_SAFE_INTEGER; lia).
  destruct (ofZ_safe z ltac:(lia) Hsafe) as (m & e & -> & He & Hval & Hf).
  destruct (Z.ltb_spec z 0); [lia|]. cbn [signed] in Hval.
  rewrite Z.abs_eq in Hf by lia.
  cbn [toString]. rewrite Z.max_l, Z.max_r by lia. rewrite Z.pow_0_r, Hval, <- (Hf false).
  destruct (magnitude_integer z Hz) as [Hn Hlt].
  destruct (shortest_integer 17 z (magnitude z 1) 1 Hz) as (k & s & Hk & -> & Hs); [lia|lia|].
  assert (0 < s).
  { assert (0 < 10 ^ (magnitude z 1 - k)) by (apply Z.pow_pos_nonneg; lia). nia. }
  rewrite format_integer by lia. by rewrite Hs.
Qed.

(** A safe integer is written as its decimal numeral. *)
Lemma toString_ofZ z : isSafeInteger z -> toString (ofZ z) = decimal z.
Proof.
  intros Hz. pose proof Hz as Hz'. unfold isSafeInteger, MAX_SAFE_INTEGER in Hz'.
  destruct (Z.lt_trichotomy z 0) as [Hneg|[->|Hpos]].
  - rewrite decimal_neg by done. rewrite <- (toString_positive (- z)) by lia.
    assert (isSafeInteger (- z)) as Hz'' by (unfold isSafeInteger, MAX_SAFE_INTEGER; lia).
    destruct (ofZ_safe z ltac:(lia) Hz) as (m & e & -> & _ & _ & Hf).
    destruct (ofZ_safe (- z) ltac:(lia) Hz'') as (m' & e' & -> & _ & _ & Hf').
    rewrite Z.abs_opp in Hf'. pose proof (Hf' false) as E. rewrite Hf in E.
    injection E as <- <-.
    destruct (Z.ltb_spec z 0); [|lia]. destruct (Z.ltb_spec (- z) 0); [lia|].
    cbn [toString]. by destruct (shortest _ _ _ _ _ _) as [[? ?] ?].
  - reflexivity.
  - rewrite decimal_pos by done. apply toString_positive. lia.
Qed.

(** *** The numbers at work *)

Example toString_integers :
  toString (ofZ 1280) = "1280"%string /\ toString (ofZ (-42)) = "-42"%string
  /\ toString (ofZ 1000000) = "1000000"%string
  /\ toString (ofZ (2 ^ 53)) = "9007199254740992"%string
  /\ toString (ofZ (10 ^ 20)) = "100000000000000000000"%string.
Proof. vm_compute. done. Qed.

(** From [10 ^ 21] on the notation has an exponent; so it has below
    [10 ^ -6]. *)
Example toString_exponent :
  toString (ofZ (10 ^ 21)) = "1e+21"%string
  /\ toString (ofZ (123456 * 10 ^ 20)) = "1.23456e+25"%string
  /\ toString (ofQ 1 (10 ^ 6)) = "0.000001"%string
  /\ toString (ofQ 1 (10 ^ 7)) = "1e-7"%string
  /\ toString (ofQ 5 (10 ^ 324)) = "5e-324"%string
  /\ toString (ofZ (2 ^ 1024 - 2 ^ 971)) = "1.7976931348623157e+308"%string.
Proof. vm_compute. done. Qed.

Example toString_fractions :
  toString (ofQ 1 2) = "0.5"%string /\ toString (ofQ 1 10) = "0.1"%string
  /\ toString (ofQ (-5121) 4) = "-1280.25"%string
  /\ toString (ofQ 1 3) = "0.3333333333333333"%string
  /\ toString (subtract (ofQ 3 10) (ofQ 1 10)) = "0.19999999999999998"%string.
Proof. vm_compute. done. Qed.

(** Beyond the safe range an integer is rounded, and the digits written are
    the fewest that name the Number value. *)
Example ofZ_rounds :
  ofZ (2 ^ 53 + 1) = ofZ (2 ^ 53) /\ ofZ (2 ^ 53 + 3) = ofZ (2 ^ 53 + 4)
  /\ toString (ofZ 123456789012345678901) = "123456789012345680000"%string
  /\ subtract (ofZ (2 ^ 53)) (ofZ (-1)) = ofZ (2 ^ 53)
  /\ ofZ (2 ^ 1024) = Infinity false /\ ofQ (-1) (2 ^ 1075) = Zero true.
Proof. vm_compute. done. Qed.

Example subtract_special :
  subtract NaN (ofZ 1) = NaN /\ subtract (ofZ 1) NaN = NaN
  /\ subtract (Infinity false) (Infinity false) = NaN
  /\ subtract (ofZ 1) (Infinity false) = Infinity true
  /\ subtract (ofZ 7) (ofZ 7) = Zero false
  /\ subtract (Zero true) (Zero false) = Zero true
  /\ toString (Zero true) = "0"%string /\ toString (Infinity true) = "-Infinity"%string.
Proof. vm_compute. done. Qed.

End DoubleFacts.

(** ** The shared-video panel *)

Module SharedVideoFacts.

Import JS Words Samples JSFacts SharedVideo.

Section Component.

Context {num : Type} {N : Number num} {G : Globals num} {P : URL.HostParser}.

Implicit Types (props : IProps num) (url : string).

(** The test [!videoUrl] and the regular expression, read as propositions. *)
Lemma getManager_empty props :
  videoUrl props = None \/ videoUrl props = Some ""%string ->
  getManager props = Normal None.
Proof. unfold getManager. by intros [->| ->]. Qed.

Lemma getManager_youtube props url :
  videoUrl props = Some url -> url <> ""%string -> ~ contains url "http" ->
  getManager props = Normal (Some (YoutubeVideoManager url)).
Proof.
  intros Hurl Hne Hno. unfold getManager. rewrite Hurl.
  rewrite bool_decide_eq_false_2 by done.
  rewrite bool_decide_eq_false_2; [done|]. by rewrite matchLiteral_contains.
Qed.

Lemma getManager_http props url :
  videoUrl props = Some url -> url <> ""%string -> contains url "http" ->
  getManager props =
    match URL.parse url with
    | Some vUrl =>
        Normal (Some (if endsWith (URL.pathname vUrl) ".flv"
                         || endsWith (URL.pathname vUrl) ".m3u8"
                      then ExtendedVideoManager url else VideoManager url))
    | None => Throw (TypeError "Invalid URL")
    end.
Proof.
  intros Hurl Hne Hhttp. unfold getManager. rewrite Hurl.
  rewrite bool_decide_eq_false_2 by done.
  rewrite bool_decide_eq_true_2 by by rewrite matchLiteral_contains.
  unfold URL.new. destruct (URL.parse url) as [vUrl|]; [|done].
  cbn. by destruct (_ || _).
Qed.

(** C1 (as amended).  [getManager] selects the manager from the shape of
    [videoUrl]: [null] when it is absent or empty; when it contains [http]
    and the URL constructor parses it, an [ExtendedVideoManager] if the
    pathname of the parsed URL ends with [.flv] or [.m3u8] and a
    [VideoManager] otherwise; when it contains [http] and the URL constructor
    rejects it, no manager: the constructor's [TypeError] is thrown; in every
    other case a [YoutubeVideoManager].  Each manager has [videoId] equal to
    [videoUrl], and no other prop is read. *)
Theorem getManager_selects props :
  (forall props' : IProps num,
     videoUrl props' = videoUrl props -> getManager props' = getManager props)
  /\
  match videoUrl props with
  | None => getManager props = Normal None
  | Some url =>
      (url = ""%string -> getManager props = Normal None)
      /\ (url <> ""%string -> contains url "http" ->
          match URL.parse url with
          | Some vUrl =>
              (hasSuffix (URL.pathname vUrl) ".flv"
               \/ hasSuffix (URL.pathname vUrl) ".m3u8" ->
               getManager props = Normal (Some (ExtendedVideoManager url)))
              /\ (~ (hasSuffix (URL.pathname vUrl) ".flv"
                     \/ hasSuffix (URL.pathname vUrl) ".m3u8") ->
                  getManager props = Normal (Some (VideoManager url)))
          | None => getManager props = Throw (TypeError "Invalid URL")
          end)
      /\ (url <> ""%string -> ~ contains url "http" ->
          getManager props = Normal (Some (YoutubeVideoManager url)))
  end.
Proof.
  split; [intros props' E; unfold getManager; by rewrite E|].
  destruct (videoUrl props) as [url|] eqn:Hurl; [|apply getManager_empty; by left].
  split; [|split].
  - intros ->. apply getManager_empty. by right.
  - intros Hne Hhttp. rewrite (getManager_http props url Hurl Hne Hhttp).
    destruct (URL.parse url) as [vUrl|]; [|done].
    destruct (endsWith (URL.pathname vUrl) ".flv") eqn:Eflv;
      destruct (endsWith (URL.pathname vUrl) ".m3u8") eqn:Em3u8; cbn [orb];
      (split; [done || (intros [E|E]; apply endsWith_spec in E; congruence)|]);
      try done; intros Hno; exfalso; apply Hno;
      [left|left|right]; by apply endsWith_spec.
  - by apply getManager_youtube.
Qed.

(** C2 (as amended).  [getManager] always finishes: the URL parser it calls
    stops within its bound.  It throws exactly when [videoUrl] is not empty,
    contains [http] and is rejected by the URL constructor, and what it
    throws then is the constructor's [TypeError]; the test that [videoUrl]
    is not empty is its only guard. *)
Theorem getManager_throws_iff props (e : error) :
  (forall url, is_Some (URL.run (URL.preprocess (list_ascii_of_string url))
                          (S (URL.measure (URL.preprocess (list_ascii_of_string url))
                                URL.start)) URL.start))
  /\ (getManager props = Throw e <->
      e = TypeError "Invalid URL"
      /\ exists url, videoUrl props = Some url /\ url <> ""%string
                     /\ contains url "http" /\ URL.parse url = None).
Proof.
  split; [intros url; apply URLFacts.parse_terminates|].
  destruct (videoUrl props) as [url|] eqn:Hurl.
  2: { rewrite getManager_empty by by left.
       split; [done|]. by intros (_ & url & ? & _). }
  destruct (decide (url = ""%string)) as [->|Hne].
  { rewrite getManager_empty by by right.
    split; [done|]. intros (_ & url & [= <-] & ? & _). done. }
  destruct (decide (is_Some (matchLiteral url "http"))) as [Hhttp|Hno].
  - apply matchLiteral_contains in Hhttp.
    rewrite (getManager_http props url Hurl Hne Hhttp).
    destruct (URL.parse url) as [vUrl|] eqn:Hparse.
    + split; [done|]. intros (_ & url' & [= <-] & _ & _ & ?). congruence.
    + split; [intros [= <-]|intros [-> _]; done].
      split; [done|]. by exists url.
  - rewrite matchLiteral_contains in Hno.
    rewrite (getManager_youtube props url Hurl Hne Hno).
    split; [done|]. intros (_ & url' & [= <-] & _ & ? & _). done.
Qed.

(** C9 (as amended).  [render] returns [null] when [isEnabled] is false.
    When [isEnabled] is true and [getManager] returns, it renders one [div]
    with id [sharedVideo], the style [getDimensions] computes and the child
    [getManager] returned, and the [div] has the class [disable-pointer]
    exactly when the user is resizing the filmstrip or is not the owner of
    the video (no class otherwise); when [getManager] throws, so does
    [render]. *)
Theorem render_spec props :
  (isEnabled props = false -> render props = Normal None)
  /\ (isEnabled props = true ->
      match getManager props with
      | Normal child =>
          exists el, render props = Normal (Some el)
            /\ SharedVideo.id el = "sharedVideo"%string
            /\ style el = getDimensions props
            /\ children el = child
            /\ (className el = "disable-pointer"%string
                <-> isResizing props = true \/ isOwner props = false)
            /\ (className el = ""%string
                <-> isResizing props = false /\ isOwner props = true)
      | Throw e => render props = Throw e
      end).
Proof.
  unfold render. split; intros ->; [done|]. cbn [negb].
  destruct (getManager props) as [child|e]; [|done].
  eexists. split; [reflexivity|]. cbn.
  destruct (isResizing props), (isOwner props); cbn; intuition congruence.
Qed.

End Component.

(** C3 (as amended).  [getDimensions], for every number: with the vertical
    filmstrip, the width is [clientWidth - filmstripWidth] when the
    filmstrip is visible and [clientWidth] otherwise, and the height is
    [clientHeight] minus the toolbox height; without it, the height is
    [clientHeight] minus the filmstrip height when the filmstrip is visible
    and [clientHeight] otherwise, and the width is [clientWidth].  The
    difference is that of JavaScript numbers (the exact difference, rounded
    to the nearest Number value), and each value is what the conversion of
    numbers to strings writes, followed by [px].  When the three sizes and
    the two heights are safe integers and so are their differences, the
    subtraction is exact and each value is the decimal numeral of the
    integer followed by [px]. *)
Theorem getDimensions_spec (G : Globals Double.t) (props : IProps Double.t) :
  (VERTICAL_FILMSTRIP = true ->
   width (getDimensions props)
     = (Double.toString (if filmstripVisible props
                         then Double.subtract (clientWidth props) (filmstripWidth props)
                         else clientWidth props) ++ "px")%string
   /\ height (getDimensions props)
     = (Double.toString (Double.subtract (clientHeight props) getToolboxHeight)
        ++ "px")%string)
  /\ (VERTICAL_FILMSTRIP = false ->
      height (getDimensions props)
        = (Double.toString (if filmstripVisible props
                            then Double.subtract (clientHeight props) getFilmstripHeight
                            else clientHeight props) ++ "px")%string
      /\ width (getDimensions props)
        = (Double.toString (clientWidth props) ++ "px")%string)
  /\ (forall ch cw fw th fh : Z,
        clientHeight props = Double.ofZ ch -> clientWidth props = Double.ofZ cw ->
        filmstripWidth props = Double.ofZ fw ->
        getToolboxHeight = Double.ofZ th -> getFilmstripHeight = Double.ofZ fh ->
        Double.isSafeInteger ch -> Double.isSafeInteger cw -> Double.isSafeInteger fw ->
        Double.isSafeInteger th -> Double.isSafeInteger fh ->
        Double.isSafeInteger (cw - fw) -> Double.isSafeInteger (ch - th) ->
        Double.isSafeInteger (ch - fh) ->
        (VERTICAL_FILMSTRIP = true ->
         width (getDimensions props)
           = (decimal (if filmstripVisible props then cw - fw else cw) ++ "px")%string
         /\ height (getDimensions props) = (decimal (ch - th) ++ "px")%string)
        /\ (VERTICAL_FILMSTRIP = false ->
            height (getDimensions props)
              = (decimal (if filmstripVisible props then ch - fh else ch) ++ "px")%string
            /\ width (getDimensions props) = (decimal cw ++ "px")%string)).
Proof.
  unfold getDimensions, px. cbn [sub toString Double.Number_double].
  split; [|split].
  - intros ->. cbn [width height]. by destruct (filmstripVisible props).
  - intros ->. cbn [width height]. by destruct (filmstripVisible props).
  - intros ch cw fw th fh -> -> -> -> -> Hch Hcw Hfw Hth Hfh Hw Hh Hh'.
    rewrite !DoubleFacts.subtract_ofZ by done.
    split; intros ->; cbn [width height]; destruct (filmstripVisible props);
      by rewrite !DoubleFacts.toString_ofZ by done.
Qed.

(** *** The component at work *)

Example getManager_absent :
  getManager (P:=plainHosts) (propsFor None) = Normal None
  /\ getManager (P:=plainHosts) (propsFor (Some ""%string)) = Normal None.
Proof. by split. Qed.

Example getManager_m3u8 :
  getManager (P:=plainHosts) (propsFor (Some "https://example.com/live/stream.m3u8"%string))
  = Normal (Some (ExtendedVideoManager "https://example.com/live/stream.m3u8")).
Proof. vm_compute. reflexivity. Qed.

(** The query is no part of the pathname. *)
Example getManager_flv_with_query :
  getManager (P:=plainHosts) (propsFor (Some "http://example.com/a/../clip.flv?t=10"%string))
  = Normal (Some (ExtendedVideoManager "http://example.com/a/../clip.flv?t=10")).
Proof. vm_compute. reflexivity. Qed.

Example getManager_flv_in_query :
  getManager (P:=plainHosts) (propsFor (Some "https://example.com/watch?file=clip.flv"%string))
  = Normal (Some (VideoManager "https://example.com/watch?file=clip.flv")).
Proof. vm_compute. reflexivity. Qed.

Example getManager_mp4 :
  getManager (P:=plainHosts) (propsFor (Some "https://example.com/clip.mp4"%string))
  = Normal (Some (VideoManager "https://example.com/clip.mp4")).
Proof. vm_compute. reflexivity. Qed.

Example getManager_youtube_id :
  getManager (P:=plainHosts) (propsFor (Some "dQw4w9WgXcQ"%string))
  = Normal (Some (YoutubeVideoManager "dQw4w9WgXcQ")).
Proof. vm_compute. reflexivity. Qed.

(** The regular expression has no [i] flag. *)
Example getManager_upper_case :
  getManager (P:=plainHosts) (propsFor (Some "HTTPS://EXAMPLE.COM/CLIP.FLV"%string))
  = Normal (Some (YoutubeVideoManager "HTTPS://EXAMPLE.COM/CLIP.FLV")).
Proof. vm_compute. reflexivity. Qed.

(** A string that contains [http] and has no [:] makes [getManager] throw,
    whatever the host parser. *)
Lemma getManager_no_colon {num : Type} {P : URL.HostParser} (props : IProps num)
    (url : string) :
  videoUrl props = Some url -> contains url "http" ->
  ":"%char ∉ list_ascii_of_string url ->
  getManager props = Throw (TypeError "Invalid URL").
Proof.
  intros Hurl Hhttp Hcolon.
  assert (url <> ""%string) as Hne.
  { intros ->. destruct Hhttp as (a & b & E). by destruct a. }
  rewrite (getManager_http props url Hurl Hne Hhttp).
  by rewrite URLFacts.parse_no_colon.
Qed.

(** C1 as it was claimed fails: this [videoUrl] contains [http], and its
    path would end with [.flv], yet no manager is returned: the URL
    constructor rejects it (the [:] is missing) with any host parser. *)
Lemma getManager_rejected_url :
  contains "https//example.com/live.flv" "http"
  /\ (forall (P : URL.HostParser) (m : option Manager),
       getManager (propsFor (Some "https//example.com/live.flv"%string)) <> Normal m).
Proof.
  assert (contains "https//example.com/live.flv" "http") as Hhttp
    by (by exists ""%string, "s//example.com/live.flv"%string).
  split; [done|]. intros P m.
  rewrite (getManager_no_colon (propsFor _) _ eq_refl Hhttp); [done|].
  compute_done.
Qed.

(** C2 as it was claimed fails: [getManager] throws on an identifier of
    eleven characters that happens to contain [http]. *)
Lemma getManager_throws_on_id :
  ~ (exists (P : URL.HostParser) (m : option Manager),
       getManager (propsFor (Some "x7httpA1b2C"%string)) = Normal m).
Proof.
  intros (P & m & E).
  rewrite (getManager_no_colon (propsFor _) "x7httpA1b2C" eq_refl) in E; [done| |].
  - by exists "x7"%string, "A1b2C"%string.
  - compute_done.
Qed.

Example getDimensions_vertical :
  getDimensions (G:=globals true)
    (sized (Double.ofZ 720) (Double.ofZ 1280) (Double.ofZ 200) true)
  = {| width := "1080px"; height := "640px" |}.
Proof. vm_compute. reflexivity. Qed.

Example getDimensions_horizontal :
  getDimensions (G:=globals false)
    (sized (Double.ofZ 720) (Double.ofZ 1280) (Double.ofZ 200) true)
  = {| width := "1280px"; height := "600px" |}.
Proof. vm_compute. reflexivity. Qed.

(** Nothing keeps a value above zero, and a fraction is written as one. *)
Example getDimensions_below_zero :
  getDimensions (G:=globals true)
    (sized (Double.ofZ 60) (Double.ofQ 3 2) (Double.ofZ 200) true)
  = {| width := "-198.5px"; height := "-20px" |}.
Proof. vm_compute. reflexivity. Qed.

(** Beyond the safe range the difference is rounded. *)
Example getDimensions_rounds :
  width (getDimensions (G:=globals true)
           (sized (Double.ofZ 720) (Double.ofZ (2 ^ 53 + 2)) (Double.ofZ 1) true))
  = "9007199254740992px"%string
  /\ decimal (2 ^ 53 + 2 - 1) = "9007199254740993"%string.
Proof. vm_compute. done. Qed.

(** C3 as amended, at the sizes of a window. *)
Lemma getDimensions_spec_witness :
  width (getDimensions (G:=globals true)
           (sized (Double.ofZ 720) (Double.ofZ 1280) (Double.ofZ 200) true))
  = "1080px"%string
  /\ height (getDimensions (G:=globals true)
               (sized (Double.ofZ 720) (Double.ofZ 1280) (Double.ofZ 200) true))
     = "640px"%string.
Proof.
  destruct (getDimensions_spec (globals true)
              (sized (Double.ofZ 720) (Double.ofZ 1280) (Double.ofZ 200) true))
    as (_ & _ & H).
  destruct (H 720%Z 1280%Z 200%Z 80%Z 120%Z) as [Hv _];
    try reflexivity; try (unfold Double.isSafeInteger, Double.MAX_SAFE_INTEGER; lia).
  exact (Hv eq_refl).
Defined.

(** C3 as it was claimed fails: a value is not always a decimal number
    followed by [px].  With a client height of [10 ^ 21] the height is
    written with an exponent, and with a client width that is not a number
    the width is [NaNpx]. *)
Lemma getDimensions_not_decimal :
  height (getDimensions (G:=globals true)
            (sized (Double.ofZ (10 ^ 21)) (Double.ofZ 1280) (Double.ofZ 200) true))
  = "1e+21px"%string
  /\ isDecimalPx "1e+21px" = false
  /\ width (getDimensions (G:=globals true)
              (sized (Double.ofZ 720) Double.NaN (Double.ofZ 200) true))
     = "NaNpx"%string
  /\ isDecimalPx "NaNpx" = false.
Proof. vm_compute. done. Qed.

(** C9 as it was claimed fails: with [isEnabled] true and this [videoUrl],
    [render] returns no element at all. *)
Lemma render_throws :
  isEnabled (propsFor (Some "http"%string)) = true
  /\ ~ (exists (N : Number Z) (G : Globals Z) (P : URL.HostParser)
            (el : option Element),
          render (propsFor (Some "http"%string)) = Normal el).
Proof.
  split; [done|]. intros (N & G & P & el & E). unfold render in E. cbn [isEnabled propsFor negb] in E.
  rewrite (getManager_no_colon (propsFor _) "http" eq_refl) in E; [done| |].
  - by exists ""%string, ""%string.
  - compute_done.
Qed.

End SharedVideoFacts.

(** ** The main toolbar *)

Module ToolboxFacts.

Import JS Toolbox Words Samples.

Section Component.

Context {CustomButtons AllButtons Jwt Features Thresholds : Type}.
Context {I : Imports CustomButtons AllButtons Jwt Features Thresholds}.

Abbreviation Store := (Store CustomButtons Jwt Features Thresholds).
Abbreviation Config := (Config CustomButtons Jwt Features Thresholds).

Implicit Types (props : IProps) (s : Store) (c : Config).


Lemma Toolbox_participates props s :
  participates s ->
  exists el, Toolbox.Toolbox props s = Some el
    /\ items el = renderButton <$> toolMainMenuButtons props s
    /\ hangup el = renderHangup props s.
Proof.
  intros [Hr Hg]. unfold Toolbox.Toolbox. rewrite Hr, Hg. cbn [orb].
  eexists. by split.
Qed.

Lemma endConferenceSupported_spec s :
  endConferenceSupported s = true <-> mayEndConference s.
Proof.
  unfold endConferenceSupported, mayEndConference.
  destruct (conference s) as [conf|].
  - split.
    + intros [? ?]%andb_true_iff. by exists conf.
    + intros (conf' & [= <-] & -> & ->). done.
  - split; [done|]. by intros (conf & ? & _).
Qed.

(** C8.  When [iAmRecorder] or [iAmSipGateway] is set, the component renders
    nothing, whatever the other props and state fields are. *)
Theorem Toolbox_hidden_for_recorder props s :
  iAmRecorder s = Some true \/ iAmSipGateway s = Some true ->
  Toolbox.Toolbox props s = None.
Proof.
  unfold Toolbox.Toolbox. intros [-> | ->]; cbn [truthy orb]; [done|].
  by rewrite orb_true_r.
Qed.


(** C5 (as amended).  When neither [iAmRecorder] nor [iAmSipGateway] is set,
    a hangup control is rendered exactly when the [hangup] button is enabled
    in the toolbar button list; the control is the [HangupMenuButton] with
    the end-conference and the leave-conference entries exactly when the
    conference supports ending it and the local participant is a moderator,
    and the plain [HangupButton] otherwise. *)
Theorem Toolbox_hangup_control props s :
  participates s ->
  (is_Some (renderedHangup (Toolbox.Toolbox props s))
   <-> isButtonEnabled "hangup" (toolbarButtonsToUse props s) = true)
  /\ (forall h, renderedHangup (Toolbox.Toolbox props s) = Some h ->
      (isHangupMenu h <-> mayEndConference s)
      /\ (isPlainHangup h <-> ~ mayEndConference s)).
Proof.
  intros Hp. destruct (Toolbox_participates props s Hp) as (el & -> & _ & Hh).
  unfold renderedHangup. cbn [mbind option_bind]. rewrite Hh. unfold renderHangup.
  destruct (isButtonEnabled _ _).
  2: { split; [split; [by intros [? ?]|done]|done]. }
  split; [split; [done|by eexists]|].
  intros h [= <-]. pose proof (endConferenceSupported_spec s) as Hend.
  destruct (endConferenceSupported s); cbn [isHangupMenu isPlainHangup menuItems].
  - assert (mayEndConference s) as Hm by by apply Hend.
    split; split; try done; try (intros Hno; by apply Hno).
    intros _. by eexists; eexists.
  - assert (~ mayEndConference s) as Hm by (intros Hm%Hend; done).
    by split; split.
Qed.

(** C7.  [onEscKey] dispatches [setHangupMenuVisible(false)] exactly when
    the key is [Escape] and the hangup menu is visible, and
    [setOverflowMenuVisible(false)] exactly when the key is [Escape] and the
    overflow menu is visible; it dispatches nothing else, and nothing at all
    for another key. *)
Theorem onEscKey_spec s (e : option KeyboardEvent) :
  (setHangupMenuVisible false ∈ dispatched (onEscKey s e)
   <-> eventKey <$> e = Some "Escape"%string /\ hangupMenuVisible s = true)
  /\ (setOverflowMenuVisible false ∈ dispatched (onEscKey s e)
      <-> eventKey <$> e = Some "Escape"%string /\ overflowMenuVisible s = true)
  /\ (forall a, a ∈ dispatched (onEscKey s e) ->
      a = setHangupMenuVisible false \/ a = setOverflowMenuVisible false)
  /\ (eventKey <$> e ≠ Some "Escape"%string ->
      dispatched (onEscKey s e) = [] /\ stopPropagation (onEscKey s e) = false).
Proof.
  unfold onEscKey, setHangupMenuVisible, setOverflowMenuVisible.
  destruct (decide (eventKey <$> e = Some "Escape"%string)) as [Hk|Hk].
  - rewrite bool_decide_eq_true_2 by done. cbn [dispatched stopPropagation].
    destruct (hangupMenuVisible s), (overflowMenuVisible s); cbn [app];
      (split; [|split; [|split]]); list_mem.
  - rewrite bool_decide_eq_false_2 by done. cbn [dispatched stopPropagation].
    (split; [|split; [|split]]); list_mem.
Qed.

(** C10.  The mouse-out handler dispatches [setToolbarHovered(false)], and
    only when the overflow menu is not visible; when the overflow menu is
    visible it dispatches no action, and the store, its [hovered] flag
    included, stays as it is. *)
Theorem onMouseOut_spec s :
  (forall a, a ∈ onMouseOut s ->
     a = setToolbarHovered false /\ overflowMenuVisible s = false)
  /\ (overflowMenuVisible s = false -> onMouseOut s = [setToolbarHovered false])
  /\ (overflowMenuVisible s = true ->
      onMouseOut s = [] /\ dispatchAll s (onMouseOut s) = s).
Proof.
  unfold onMouseOut. destruct (overflowMenuVisible s); cbn [negb].
  - split; [intros a Ha; by apply elem_of_nil in Ha|]. by split.
  - split; [intros a ->%list_elem_of_singleton; done|]. by split.
Qed.

(** *** The effects *)

Lemma hangupMenuEffect_fires s :
  hangupCondition s = true -> hangupMenuEffect s = hangupFired.
Proof. unfold hangupCondition, hangupMenuEffect. by intros ->. Qed.

Lemma overflowMenuEffect_fires s :
  overflowCondition s = true -> overflowMenuEffect s = overflowFired.
Proof. unfold overflowCondition, overflowMenuEffect. by intros ->. Qed.

(** The store after the actions of the two effects. *)
Lemma effects_store s (run1 run2 : bool) :
  toolbarVisible (dispatchAll s (effectActions s run1 run2)) = toolbarVisible s
  /\ isDialogVisible (dispatchAll s (effectActions s run1 run2)) = isDialogVisible s
  /\ hangupMenuVisible (dispatchAll s (effectActions s run1 run2))
     = hangupMenuVisible s && negb (run1 && hangupCondition s)
  /\ overflowMenuVisible (dispatchAll s (effectActions s run1 run2))
     = overflowMenuVisible s && negb (run2 && overflowCondition s)
  /\ (effectActions s run1 run2 ≠ [] ->
      hovered (dispatchAll s (effectActions s run1 run2)) = false)
  /\ (effectActions s run1 run2 = []
      <-> run1 && hangupCondition s = false /\ run2 && overflowCondition s = false).
Proof.
  unfold effectActions, hangupMenuEffect, overflowMenuEffect, hangupCondition, overflowCondition.
  destruct run1, run2, (hangupMenuVisible s) eqn:?, (overflowMenuVisible s) eqn:?,
    (toolbarVisible s) eqn:?, (isDialogVisible s) eqn:?; cbn;
    repeat split; intros; try done; try congruence; intuition congruence.
Qed.

Lemma step_settled c c' (actions : list Action) :
  settled c -> step c actions c' -> settled c'.
Proof.
  intros (Hh & Ho & Hfresh) Hstep. destruct Hstep as [c Hstale|c s' Hstale].
  - unfold commit, changed. cbn [fst snd].
    set (run1 := bool_decide (hangupDeps (hooks c) ≠ _)).
    set (run2 := bool_decide (overflowDeps (hooks c) ≠ _)).
    fold (effectActions (store c) run1 run2).
    destruct (effects_store (store c) run1 run2)
      as (Htv & Hdv & Hhv & Hov & _ & Hnil).
    assert (run1 = false -> hangupCondition (store c) = false) as H1.
    { intros E. apply Hh. subst run1. apply bool_decide_eq_false in E.
      by destruct (decide (hangupDeps (hooks c) = Some (hangupMenuVisible (store c), toolbarVisible (store c)))). }
    assert (run2 = false -> overflowCondition (store c) = false) as H2.
    { intros E. apply Ho. subst run2. apply bool_decide_eq_false in E.
      by destruct (decide (overflowDeps (hooks c) = Some (overflowMenuVisible (store c), isDialogVisible (store c)))). }
    unfold settled. cbn [store hooks stale hangupDeps overflowDeps].
    unfold hangupCondition, overflowCondition in *.
    rewrite Htv, Hdv, Hhv, Hov.
    split; [|split].
    + intros [= E]. destruct run1, (hangupMenuVisible (store c)),
        (toolbarVisible (store c)); cbn in *; try done; by apply H1.
    + intros [= E]. destruct run2, (overflowMenuVisible (store c)),
        (isDialogVisible (store c)); cbn in *; try done; by apply H2.
    + intros E%bool_decide_eq_false. apply dec_stable in E.
      apply Hnil in E as [E1 E2].
      destruct run1, run2; cbn in E1, E2; rewrite ?E1, ?E2, ?H1, ?H2 by done;
        cbn; by rewrite !andb_true_r.
  - unfold settled. cbn [store hooks stale].
    destruct (Hfresh Hstale) as [E1 E2]. rewrite E1, E2.
    specialize (Hh E1). specialize (Ho E2).
    unfold hangupCondition, overflowCondition in *.
    split; [|split; [|done]].
    + by intros [= <- <-].
    + by intros [= <- <-].
Qed.

Lemma reachable_settled c : reachable c -> settled c.
Proof.
  induction 1 as [s|c c' actions _ IH Hstep]; [by split|].
  by eapply step_settled.
Qed.

(** C6.  The menus do not stay open where they are hidden or in conflict:
    in every reachable configuration in which the hangup menu is visible
    and the toolbar is not, the store is about to be committed and that
    commit dispatches [setHangupMenuVisible(false)] and
    [setToolbarHovered(false)], which leave the hangup menu closed and the
    hovered flag cleared; the same holds of the overflow menu when it is
    visible together with a dialog, with [setOverflowMenuVisible(false)]. *)
Theorem effects_close_menus c :
  reachable c ->
  let actions := (commit (hooks c) (store c)).2 in
  let after := dispatchAll (store c) actions in
  (hangupMenuVisible (store c) = true -> toolbarVisible (store c) = false ->
   stale c = true
   /\ setHangupMenuVisible false ∈ actions /\ setToolbarHovered false ∈ actions
   /\ hangupMenuVisible after = false /\ hovered after = false)
  /\ (overflowMenuVisible (store c) = true -> isDialogVisible (store c) = true ->
      stale c = true
      /\ setOverflowMenuVisible false ∈ actions /\ setToolbarHovered false ∈ actions
      /\ overflowMenuVisible after = false /\ hovered after = false).
Proof.
  intros (Hh & Ho & Hfresh)%reachable_settled. unfold commit, changed. cbn [snd].
  set (run1 := bool_decide (hangupDeps (hooks c) ≠ _)).
  set (run2 := bool_decide (overflowDeps (hooks c) ≠ _)).
  fold (effectActions (store c) run1 run2).
  destruct (effects_store (store c) run1 run2) as (_ & _ & Hhv & Hov & Hhov & _).
  split; intros Hv Hc.
  - assert (hangupCondition (store c) = true) as Hcond
      by (unfold hangupCondition; by rewrite Hv, Hc).
    assert (run1 = true) as Hrun.
    { subst run1. apply bool_decide_eq_true. intros E. apply Hh in E. congruence. }
    assert (effectActions (store c) run1 run2
            = hangupFired ++ (if run2 then overflowMenuEffect (store c) else [])) as Hacts
      by (unfold effectActions; by rewrite Hrun, hangupMenuEffect_fires).
    assert (effectActions (store c) run1 run2 ≠ []) as Hne
      by (by rewrite Hacts).
    split.
    { destruct (stale c) eqn:Hs; [done|]. destruct (Hfresh eq_refl) as [E _].
      apply Hh in E. congruence. }
    rewrite Hhv, (Hhov Hne), Hacts, Hrun, Hcond, ?andb_false_r.
    repeat split; try done.
    + apply elem_of_app. left. apply list_elem_of_here.
    + apply elem_of_app. left. apply list_elem_of_further, list_elem_of_here.
  - assert (overflowCondition (store c) = true) as Hcond
      by (unfold overflowCondition; by rewrite Hv, Hc).
    assert (run2 = true) as Hrun.
    { subst run2. apply bool_decide_eq_true. intros E. apply Ho in E. congruence. }
    assert (effectActions (store c) run1 run2
            = (if run1 then hangupMenuEffect (store c) else []) ++ overflowFired) as Hacts
      by (unfold effectActions; by rewrite Hrun, overflowMenuEffect_fires).
    assert (effectActions (store c) run1 run2 ≠ []) as Hne
      by (rewrite Hacts; by destruct (if run1 then _ else _)).
    split.
    { destruct (stale c) eqn:Hs; [done|]. destruct (Hfresh eq_refl) as [_ E].
      apply Ho in E. congruence. }
    rewrite Hov, (Hhov Hne), Hacts, Hrun, Hcond, ?andb_false_r.
    repeat split; try done.
    + apply elem_of_app. right. apply list_elem_of_here.
    + apply elem_of_app. right. apply list_elem_of_further, list_elem_of_here.
Qed.

End Component.

(** *** The component at work *)

Example Toolbox_moderator_row :
  renderedButtons (Toolbox.Toolbox (I:=sampleImports) noProps
                     (storeWith None true false false true false))
  = [buttonElement microphone; buttonElement camera; buttonElement chat].
Proof. vm_compute. reflexivity. Qed.

Example Toolbox_guest_hangup :
  renderedHangup (Toolbox.Toolbox (I:=sampleImports) noProps
                    (storeWith None false false false true false))
  = Some (HangupButton "hangup" "hangup-button" "hangup-button" None true).
Proof. vm_compute. reflexivity. Qed.

Lemma Toolbox_hidden_for_recorder_witness :
  iAmRecorder (storeWith (Some true) true false false true false) = Some true
  /\ Toolbox.Toolbox (I:=sampleImports) noProps
       (storeWith (Some true) true false false true false) = None.
Proof.
  split; [reflexivity|].
  apply (Toolbox_hidden_for_recorder (I:=sampleImports)). left. reflexivity.
Defined.



(** C5 as it was claimed fails: for a recorder the [hangup] button is
    enabled in the toolbar button list and no hangup control is rendered. *)
Lemma Toolbox_recorder_hangup :
  isButtonEnabled (Imports:=sampleImports) "hangup"
    (toolbarButtonsToUse noProps (storeWith (Some true) true false false true false))
  = true
  /\ renderedHangup (Toolbox.Toolbox (I:=sampleImports) noProps
                       (storeWith (Some true) true false false true false)) = None.
Proof. split; vm_compute; reflexivity. Qed.

Lemma Toolbox_hangup_control_witness :
  participates (storeWith None true false false true false)
  /\ (is_Some (renderedHangup (Toolbox.Toolbox (I:=sampleImports) noProps
                                 (storeWith None true false false true false)))
      <-> isButtonEnabled (Imports:=sampleImports) "hangup"
            (toolbarButtonsToUse noProps (storeWith None true false false true false))
          = true).
Proof.
  assert (participates (storeWith None true false false true false)) as Hp
    by (split; reflexivity).
  split; [exact Hp|].
  apply (Toolbox_hangup_control (I:=sampleImports) noProps _ Hp).
Defined.

Lemma hangupLeftOpen_reachable : reachable (I:=sampleImports) hangupLeftOpen.
Proof.
  apply (reachable_step (c:=shownAndSettled) (actions:=[])).
  - exact (reachable_step (reachable_mount _)
             (step_commit (I:=sampleImports)
                (mount (storeWith None true false false true false)) eq_refl)).
  - exact (step_update (I:=sampleImports) shownAndSettled
             (storeWith None true true false false false) eq_refl).
Defined.

Lemma effects_close_menus_witness :
  reachable (I:=sampleImports) hangupLeftOpen
  /\ hangupMenuVisible (store hangupLeftOpen) = true
  /\ toolbarVisible (store hangupLeftOpen) = false
  /\ setHangupMenuVisible false ∈ (commit (hooks hangupLeftOpen) (store hangupLeftOpen)).2
  /\ hovered (dispatchAll (I:=sampleImports) (store hangupLeftOpen)
                (commit (hooks hangupLeftOpen) (store hangupLeftOpen)).2) = false.
Proof.
  split; [exact hangupLeftOpen_reachable|]. split; [reflexivity|]. split; [reflexivity|].
  destruct (effects_close_menus (I:=sampleImports) hangupLeftOpen hangupLeftOpen_reachable)
    as [Hhangup _].
  destruct (Hhangup eq_refl eq_refl) as (_ & Hin & _ & _ & Hhov).
  split; [exact Hin|exact Hhov].
Defined.

Example onEscKey_escape :
  onEscKey (storeWith None true true true true false) (Some {| eventKey := "Escape" |})
  = {| stopPropagation := true;
       dispatched := [setHangupMenuVisible false; setOverflowMenuVisible false] |}.
Proof. reflexivity. Qed.

Example onEscKey_enter :
  onEscKey (storeWith None true true true true false) (Some {| eventKey := "Enter" |})
  = {| stopPropagation := false; dispatched := [] |}.
Proof. reflexivity. Qed.

Example onMouseOut_overflow_open :
  onMouseOut (storeWith None true false true true false) = []
  /\ onMouseOut (storeWith None true false false true false) = [setToolbarHovered false].
Proof. by split. Qed.

End ToolboxFacts.
